(** * Streaming payments: the accrual ledger of [script.js]

    A shallow embedding of the stream ledger kept by the front end
    ([calcAccrued], [cancelStream], [claimForStream], the claim-all handler,
    [updateStatuses], [createStreamObject]) together with the properties of
    its accrual and settlement state machine.

    Amounts ([total], [rate], [claimed]) are JavaScript numbers, i.e. IEEE 754
    binary64 values; they are embedded as Rocq's primitive [float], whose
    operations are exactly the binary64 ones (round to nearest, ties to even).
    Instants are JavaScript time values: integral milliseconds since the
    epoch, of magnitude below 2^53, embedded as [Z]; on them [<=], [>=] and
    [Math.min] are those of [Z], and the difference of two is the binary64
    value nearest to the difference in [Z].  Every [Date.now()] the source
    reads is an explicit argument of the embedded function, in the order the
    source reads them.  Writes to [localStorage] and to the page leave the
    [streams] array as it is and are not part of the embedding. *)

From Stdlib Require Import ZArith List String Ascii Bool Lia Floats.
From Stdlib Require Uint63.
Import ListNotations.

Set Warnings "-inexact-float".
Local Open Scope Z_scope.

(** ** JavaScript numbers *)

Module JS.

(** [Math.min(a, b)]: NaN when an argument is NaN, and -0 below +0. *)
Definition min (a b : float) : float :=
  if is_nan a || is_nan b then nan
  else if (a <? b)%float then a
  else if (b <? a)%float then b
  else if get_sign a then a else b.

(** [Math.max(a, b)]: NaN when an argument is NaN, and +0 above -0. *)
Definition max (a b : float) : float :=
  if is_nan a || is_nan b then nan
  else if (a <? b)%float then b
  else if (b <? a)%float then a
  else if get_sign a then b else a.

(** The number that a difference of two time values is: the binary64
    value nearest to the integer (exact below 2^53; the differences are well
    within the 63 bits [of_uint63] reads). *)
Definition of_Z (z : Z) : float :=
  match z with
  | Z0 => 0%float
  | Zpos p => of_uint63 (Uint63.of_Z (Zpos p))
  | Zneg p => (- of_uint63 (Uint63.of_Z (Zpos p)))%float
  end.

(** [a >= b] and [a > b] on numbers; both are false on NaN. *)
Definition geb (a b : float) : bool := (b <=? a)%float.
Definition gtb (a b : float) : bool := (b <? a)%float.

(** [str.toLowerCase()] on a string of ASCII code units, where it lowers the
    letters A-Z and leaves every other code unit.  Names are taken to be
    such strings; outside them JavaScript lowers further letters, which
    this function leaves as they are. *)
Definition lower_ascii (c : ascii) : ascii :=
  let n := nat_of_ascii c in
  if ((65 <=? n) && (n <=? 90))%nat then ascii_of_nat (n + 32) else c.

Fixpoint toLowerCase (s : string) : string :=
  match s with
  | EmptyString => EmptyString
  | String c rest => String (lower_ascii c) (toLowerCase rest)
  end.

(** Truthiness of a string: only the empty string is falsy. *)
Definition truthy_string (s : string) : bool :=
  match s with EmptyString => false | _ => true end.

(** Truthiness of a number that is a time value: only 0 is falsy. *)
Definition truthy_ms (ms : Z) : bool := negb (ms =? 0).

End JS.

(** ** The data model *)

Inductive Status := Active | Cancelled | Paid.

Definition Status_eqb (a b : Status) : bool :=
  match a, b with
  | Active, Active | Cancelled, Cancelled | Paid, Paid => true
  | _, _ => false
  end.

(** One stream object, with the fields [createStreamObject] gives it. *)
Record Stream := mkStream {
  id : Z;
  sender : string;
  recipient : string;
  total : float;
  rate : float;
  start : Z;
  end_ : Z;
  cancelledAt : option Z;
  claimed : float;
  status : Status;
  createdAt : Z
}.

(** Assignments to the three fields the ledger ever writes. *)
Definition set_status (s : Stream) (st : Status) : Stream :=
  mkStream (id s) (sender s) (recipient s) (total s) (rate s) (start s)
           (end_ s) (cancelledAt s) (claimed s) st (createdAt s).

Definition set_cancelledAt (s : Stream) (c : option Z) : Stream :=
  mkStream (id s) (sender s) (recipient s) (total s) (rate s) (start s)
           (end_ s) c (claimed s) (status s) (createdAt s).

Definition set_claimed (s : Stream) (c : float) : Stream :=
  mkStream (id s) (sender s) (recipient s) (total s) (rate s) (start s)
           (end_ s) (cancelledAt s) c (status s) (createdAt s).

(** The global [streams] array. *)
Definition Streams := list Stream.

(** What the user is told: the one [alert] a call makes.  An amount is shown
    through [toFixed(2)]; the alert carries the number that is shown. *)
Inductive Alert :=
| NotActive
| StreamCancelled (returned : float)
| OnlyRecipient
| NothingToClaim
| Claimed (claimable : float)
| EnterRecipientName
| ClaimedFor (totalClaimed : float) (name : string).

(** ** The accrual engine *)

Definition FIXED_PER_MINUTE : float := 1%float.
Definition eps : float := 1e-6%float.

(** [calcAccrued(s, now)].  [cancelledAtMs] is [null] when [s.cancelledAt] is
    falsy, and [effectiveEnd] tests [cancelledAtMs] for truthiness again, so
    an instant of 0 milliseconds counts as no cancellation on both tests. *)
Definition calcAccrued (s : Stream) (now : Z) : float :=
  if now <=? start s then 0%float
  else
    let cancelledAtMs :=
      match cancelledAt s with
      | Some c => if JS.truthy_ms c then Some c else None
      | None => None
      end in
    let effectiveEnd :=
      match cancelledAtMs with
      | Some c => Z.min (end_ s) c
      | None => end_ s
      end in
    let elapsed := Z.min now effectiveEnd - start s in
    let accrued := (rate s * (JS.of_Z elapsed / 1000))%float in
    JS.min accrued (total s).

(** [Math.max(0, accrued - s.claimed)], as [claimForStream] and the tables
    compute it. *)
Definition claimable (s : Stream) (now : Z) : float :=
  JS.max 0%float (calcAccrued s now - claimed s)%float.

(** ** The ledger *)

(** [streams.find(x => x.id === id)]: the first stream with that id. *)
Definition find_stream (i : Z) (streams : Streams) : option Stream :=
  List.find (fun x => id x =? i) streams.

(** Writing to the object [find] returned changes that element of the array. *)
Fixpoint update_first (i : Z) (s' : Stream) (streams : Streams) : Streams :=
  match streams with
  | [] => []
  | x :: rest =>
      if id x =? i then s' :: rest else x :: update_first i s' rest
  end.

(** [updateStatuses()], with the instant it reads. *)
Definition sweep (now : Z) (s : Stream) : Stream :=
  if Status_eqb (status s) Active && (end_ s <=? now)
  then set_status s Paid else s.

Fixpoint updateStatuses (now : Z) (streams : Streams) : Streams :=
  match streams with
  | [] => []
  | s :: rest => sweep now s :: updateStatuses now rest
  end.

(** [renderAll()] writes to the page, and to [streams] only through
    [updateStatuses]. *)
Definition renderAll (now : Z) (streams : Streams) : Streams :=
  updateStatuses now streams.

(** [cancelStream(id)], the id written [i].  [now] is the instant read in
    its body, [now_render] the one [renderAll] reads before the closing
    [alert]. *)
Definition cancelStream (i : Z) (now now_render : Z) (streams : Streams)
  : Streams * option Alert :=
  match find_stream i streams with
  | None => (streams, None)
  | Some s =>
      if negb (Status_eqb (status s) Active) then (streams, Some NotActive)
      else
        let accrued := calcAccrued s now in
        let returned := (total s - accrued)%float in
        let s' :=
          if JS.geb (claimed s + eps)%float accrued
          then set_cancelledAt (set_status s Paid) (Some now)
          else set_cancelledAt (set_status s Cancelled) (Some now) in
        (renderAll now_render (update_first i s' streams),
         Some (StreamCancelled returned))
  end.

(** [claimForStream(id, recipient)], its arguments written [i] and [caller]
    beside the fields of those names.  [now] is the instant the claimable
    amount is computed at, [now_paid] the [Date.now()] of the Paid test and
    [now_render] the one [renderAll] reads. *)
Definition claimForStream (i : Z) (caller : string)
    (now now_paid now_render : Z) (streams : Streams)
  : Streams * option Alert :=
  match find_stream i streams with
  | None => (streams, None)
  | Some s =>
      if negb (JS.truthy_string caller)
         || negb (String.eqb (JS.toLowerCase caller)
                             (JS.toLowerCase (recipient s)))
      then (streams, Some OnlyRecipient)
      else
        let accrued := calcAccrued s now in
        let claimable := JS.max 0%float (accrued - claimed s)%float in
        if (claimable <=? 0)%float then (streams, Some NothingToClaim)
        else
          let s1 := set_claimed s (claimed s + claimable)%float in
          let s2 :=
            if JS.geb (claimed s1 + eps)%float
                      (JS.min (total s1) (calcAccrued s1 now_paid))
            then set_status s1 Paid else s1 in
          (renderAll now_render (update_first i s2 streams),
           Some (Claimed claimable))
  end.

(** [createStreamObject(recipient, start, end, totalAda = null)]; [uid] is
    what [uid()] returned and [created] the [Date.now()] of [createdAt]. *)
Definition createStreamObject (uid created : Z) (recipient : string)
    (start end_ : Z) (totalAda : option float) : Stream :=
  let startMs := start in
  let endMs := end_ in
  let seconds := JS.max 1%float (JS.of_Z (endMs - startMs) / 1000)%float in
  let minutes := (seconds / 60)%float in
  let fixed :=
    let perMinute := FIXED_PER_MINUTE in
    ((perMinute * minutes)%float, (perMinute / 60)%float) in
  let total_rate :=
    match totalAda with
    | Some t => if JS.gtb t 0%float then (t, (t / seconds)%float) else fixed
    | None => fixed
    end in
  mkStream uid "You (Local)" recipient (fst total_rate) (snd total_rate)
           startMs endMs None 0%float Active created.

(** The body of the [forEach] of the [claimAllBtn] handler on one stream:
    the stream it leaves and the new [totalClaimed].  [now_paid] is the
    [Date.now()] of the Paid test on this stream. *)
Definition claimAll_stream (name : string) (now now_paid : Z)
    (totalClaimed : float) (s : Stream) : Stream * float :=
  if String.eqb (JS.toLowerCase (recipient s)) (JS.toLowerCase name)
     && (Status_eqb (status s) Active || Status_eqb (status s) Cancelled
         || Status_eqb (status s) Paid)
  then
    let accrued := (calcAccrued s now - claimed s)%float in
    if JS.gtb accrued 0%float then
      let s1 := set_claimed s (claimed s + accrued)%float in
      let s2 :=
        if JS.geb (claimed s1 + eps)%float
                  (JS.min (total s1) (calcAccrued s1 now_paid))
        then set_status s1 Paid else s1 in
      (s2, (totalClaimed + accrued)%float)
    else (s, totalClaimed)
  else (s, totalClaimed).

(** The [forEach] itself, from position [k] of the array on; [now_paid k] is
    the instant the Paid test reads at position [k]. *)
Fixpoint claimAll_loop (name : string) (now : Z) (now_paid : nat -> Z)
    (k : nat) (totalClaimed : float) (streams : Streams) : Streams * float :=
  match streams with
  | [] => ([], totalClaimed)
  | s :: rest =>
      let r := claimAll_stream name now (now_paid k) totalClaimed s in
      let rs := claimAll_loop name now now_paid (S k) (snd r) rest in
      (fst r :: fst rs, snd rs)
  end.

(** The [claimAllBtn] handler, for the name looked up. *)
Definition claimAll (name : string) (now : Z) (now_paid : nat -> Z)
    (now_render : Z) (streams : Streams) : Streams * option Alert :=
  if negb (JS.truthy_string name) then (streams, Some EnterRecipientName)
  else
    let r := claimAll_loop name now now_paid 0 0%float streams in
    (renderAll now_render (fst r), Some (ClaimedFor (snd r) name)).

(** ** The ledger as a state machine *)

(** Modelled from the spec: the ledger's [create] stores the new stream; the
    source builds the object in [createStreamObject] and has no call that
    adds it to [streams], so the store is extended at its end here. *)
Definition create (uid created : Z) (recipient : string) (start end_ : Z)
    (totalAda : option float) (streams : Streams) : Streams :=
  streams ++ [createStreamObject uid created recipient start end_ totalAda].

(** One operation of the ledger, with the instants its code reads. *)
Inductive Op :=
| Create (uid created : Z) (recipient : string) (start end_ : Z)
         (totalAda : option float)
| Claim (i : Z) (caller : string) (now now_paid now_render : Z)
| ClaimAll (name : string) (now : Z) (now_paid : nat -> Z) (now_render : Z)
| Cancel (i : Z) (now now_render : Z)
| Reconcile (now : Z).

Definition step (streams : Streams) (op : Op) : Streams :=
  match op with
  | Create uid created recipient start end_ totalAda =>
      create uid created recipient start end_ totalAda streams
  | Claim i caller now now_paid now_render =>
      fst (claimForStream i caller now now_paid now_render streams)
  | ClaimAll name now now_paid now_render =>
      fst (claimAll name now now_paid now_render streams)
  | Cancel i now now_render => fst (cancelStream i now now_render streams)
  | Reconcile now => updateStatuses now streams
  end.

Definition run (ops : list Op) (streams : Streams) : Streams :=
  fold_left step ops streams.

(** The stores the ledger can be in: those some history builds from the
    empty store. *)
Definition reachable (streams : Streams) : Prop :=
  exists ops, run ops [] = streams.

(** ** The specification's own words *)

Module Spec.

Inductive Error :=
| InvalidStreamParameters
| StreamNotFound
| Unauthorized
| NotActive
| NothingToClaim.

(** "effectiveEnd(s) = min(s.end, s.cancelledAt) if cancelledAt is set,
    else s.end." *)
Definition effectiveEnd (s : Stream) : Z :=
  match cancelledAt s with
  | Some c => Z.min (end_ s) c
  | None => end_ s
  end.

(** "accrued(s, now) = 0 if now <= s.start; otherwise
    min(s.rate * (min(now, effectiveEnd(s)) - s.start), s.total)", the
    elapsed time in seconds. *)
Definition accrued (s : Stream) (now : Z) : float :=
  if now <=? start s then 0%float
  else JS.min (rate s * (JS.of_Z (Z.min now (effectiveEnd s) - start s)
                         / 1000))%float
              (total s).

(** "create: requires total > 0, start < end (duration clamped to a minimum
    of 1 second); computes rate = total / durationSeconds, sets
    status=Active; fails with InvalidStreamParameters when total<=0 or
    end<=start." *)
Definition create (uid created : Z) (sender recipient : string)
    (total : float) (start end_ : Z) : Error + Stream :=
  if (total <=? 0)%float || (end_ <=? start)
  then inl InvalidStreamParameters
  else
    let durationSeconds :=
      JS.max 1%float (JS.of_Z (end_ - start) / 1000)%float in
    inr (mkStream uid sender recipient total (total / durationSeconds)%float
                  start end_ None 0%float Active created).

(** "cancel: fails with StreamNotFound/Unauthorized (caller must be sender);
    fails with NotActive if status != Active": the failure, if any, of
    [cancel(id, callerIdentity, now)]. *)
Definition cancel_failure (i : Z) (callerIdentity : string)
    (streams : Streams) : option Error :=
  match find_stream i streams with
  | None => Some StreamNotFound
  | Some s =>
      if negb (String.eqb callerIdentity (sender s)) then Some Unauthorized
      else if negb (Status_eqb (status s) Active) then Some NotActive
      else None
  end.

End Spec.

(** ** Streams used in the examples *)

(** [total = 100] over 100 seconds from instant 0: the specification's
    scenario 1. *)
Definition scenario : Streams :=
  run [Create 7 0 "bob" 0 100000 (Some 100%float)] [].

(** [total = 1] over 10 seconds from instant 0, so [rate = 0.1]. *)
Definition one_over_ten : Streams :=
  run [Create 7 0 "bob" 0 10000 (Some 1%float)] [].

(** [total = 1] over the second from instant 1000 to 2000, cancelled at
    instant 500, before it starts. *)
Definition cancelled_early : Streams :=
  run [Create 7 0 "bob" 1000 2000 (Some 1%float); Cancel 7 500 500] [].

(** [total = 2] over the two seconds around the epoch, cancelled at the
    epoch instant 0. *)
Definition cancelled_at_epoch : Streams :=
  run [Create 7 (-2000) "bob" (-1000) 1000 (Some 2%float); Cancel 7 0 0] [].

(** The scenario stream left unclaimed until its end, then swept. *)
Definition swept : Streams :=
  run [Create 7 0 "bob" 0 100000 (Some 100%float); Reconcile 100000] [].

(** The [one_over_ten] stream claimed at 2 seconds, and then at 7. *)
Definition claimed_at_two : Streams :=
  run [Claim 7 "bob" 2000 2000 2000] one_over_ten.

Definition claimed_at_seven : Streams :=
  run [Claim 7 "bob" 7000 7000 7000] claimed_at_two.

(** ** Numbers that are not below zero *)

(** A binary64 value that is not negative: a zero, a positive number,
    +Infinity, or no number at all. *)
Definition nonneg (x : spec_float) : Prop :=
  match x with
  | S754_nan | S754_zero _ => True
  | S754_infinity s | S754_finite s _ _ => s = false
  end.

(** ** How a stream may change *)

(** The order of the state machine: Active, then Cancelled, then Paid. *)
Definition rank (st : Status) : Z :=
  match st with Active => 0 | Cancelled => 1 | Paid => 2 end.

(** A stream is well formed when it is Active only while not cancelled. *)
Definition well_formed (s : Stream) : Prop :=
  status s = Active -> cancelledAt s = None.

(** [evolves claims s s']: what the operations may turn [s] into: the
    identity, parties, principal, rate and window stay; the status only
    moves forward; [cancelledAt] is written only while the stream is Active;
    and [claimed] is written only by a claim ([claims = true]). *)
Record evolves (claims : bool) (s s' : Stream) : Prop := {
  ev_id : id s' = id s;
  ev_sender : sender s' = sender s;
  ev_recipient : recipient s' = recipient s;
  ev_total : total s' = total s;
  ev_rate : rate s' = rate s;
  ev_start : start s' = start s;
  ev_end : end_ s' = end_ s;
  ev_created : createdAt s' = createdAt s;
  ev_status : rank (status s) <= rank (status s');
  ev_cancelledAt : status s <> Active -> cancelledAt s' = cancelledAt s;
  ev_claimed : claims = false -> claimed s' = claimed s;
  ev_well_formed : well_formed s -> well_formed s'
}.

(** The same, for every stream of a store, position by position. *)
Definition store_evolves (claims : bool) (l l' : Streams) : Prop :=
  forall n s, nth_error l n = Some s ->
    exists s', nth_error l' n = Some s' /\ evolves claims s s'.

Definition is_claim (op : Op) : bool :=
  match op with
  | Claim _ _ _ _ _ | ClaimAll _ _ _ _ => true
  | _ => false
  end.

(** * The views and the rest of the front end *)

(** ** The statistics of the sender view *)

(** [x || 0] on a number: 0 when [x] is falsy, that is 0, -0 or NaN. *)
Definition or_zero (x : float) : float :=
  if is_nan x || is_zero x then 0%float else x.

(** [renderSenderStats()]: the three figures it writes to the page. *)
Definition totalDeposited (streams : Streams) : float :=
  fold_left (fun a b => (a + or_zero (total b))%float) streams 0%float.

Definition totalClaimed (streams : Streams) : float :=
  fold_left (fun a b => (a + or_zero (claimed b))%float) streams 0%float.

Definition activeCount (streams : Streams) : nat :=
  List.length (filter (fun s => Status_eqb (status s) Active) streams).

(** ** The buttons of the tables *)

(** [name.replace(/'/g, ...)] of the two tables: a backslash is written
    before every apostrophe, and nothing else is changed. *)
Fixpoint escape_apostrophes (name : string) : string :=
  match name with
  | EmptyString => EmptyString
  | String c rest =>
      if Ascii.eqb c "039"%char
      then String "092"%char (String "039"%char (escape_apostrophes rest))
      else String c (escape_apostrophes rest)
  end.

(** The [onclick] text of a button of a table row: [cancelStream(i)], or
    [claimForStream(i, 'literal')] with the text that the table pastes
    between the two apostrophes. *)
Inductive Action :=
| CallCancel (i : Z)
| CallClaim (i : Z) (literal : string).

(** The last cell of a row of [renderStreamsTable()]: a Cancel button on an
    Active stream, and a Claim button when something is claimable and the
    sender is not the local one.  The other cells are text. *)
Definition streamsTable_actions (now : Z) (s : Stream) : list Action :=
  let accrued := calcAccrued s now in
  let claimable := JS.max 0%float (accrued - claimed s)%float in
  (if Status_eqb (status s) Active then [CallCancel (id s)] else [])
  ++ (if JS.gtb claimable 0%float
         && negb (String.eqb (sender s) "You (Local)")
      then [CallClaim (id s) (escape_apostrophes (recipient s))] else []).

Definition renderStreamsTable (now : Z) (streams : Streams)
  : list (list Action) :=
  map (streamsTable_actions now) streams.

(** [renderRecipient(name)]: nothing for an empty name; otherwise a row for
    each stream of that recipient, a Claim button in it when something is
    claimable, and the balance written under the table. *)
Definition recipient_rows (name : string) (streams : Streams) : Streams :=
  filter (fun s => String.eqb (JS.toLowerCase (recipient s))
                              (JS.toLowerCase name)) streams.

Definition recipient_actions (name : string) (now : Z) (s : Stream)
  : list Action :=
  let accrued := calcAccrued s now in
  let claimable := JS.max 0%float (accrued - claimed s)%float in
  if JS.gtb claimable 0%float
  then [CallClaim (id s) (escape_apostrophes name)] else [].

Definition renderRecipient (name : string) (now : Z) (streams : Streams)
  : option (list (list Action) * float) :=
  if negb (JS.truthy_string name) then None
  else
    let rows := recipient_rows name streams in
    Some (map (recipient_actions name now) rows,
          fold_left
            (fun balance s =>
               (balance + JS.max 0%float (calcAccrued s now - claimed s))%float)
            rows 0%float).

(** A name written in ASCII code units alone, on which [JS.toLowerCase] is
    [toLowerCase] of JavaScript. *)
Fixpoint ascii_only (name : string) : bool :=
  match name with
  | EmptyString => true
  | String c rest => (nat_of_ascii c <? 128)%nat && ascii_only rest
  end.

(** ** What every stream of a reachable store satisfies *)

(** A stream is Active only while it has no cancellation instant, Cancelled
    only with one, and its sender is the local one. *)
Definition consistent (s : Stream) : Prop :=
  (status s = Active -> cancelledAt s = None)
  /\ (status s = Cancelled -> cancelledAt s <> None)
  /\ sender s = "You (Local)"%string.

(** ** The amounts sent to the wallet *)

(** [BigInt(Math.floor(x))]: the greatest integer not above [x]; [None]
    where [BigInt] throws a RangeError, on NaN and the infinities. *)
Definition floor_BigInt (x : float) : option Z :=
  match Prim2SF x with
  | S754_zero _ => Some 0
  | S754_finite sg m e =>
      let v := if sg then Zneg m else Zpos m in
      Some (if 0 <=? e then v * 2 ^ e else v / 2 ^ (- e))
  | S754_infinity _ | S754_nan => None
  end.

(** [amountLovelace] of [submitStreamTransaction] and of
    [buildStreamingTransaction], and [ratePerMs] of the latter. *)
Definition amountLovelace (amountAda : float) : option Z :=
  floor_BigInt (amountAda * 1000000)%float.

Definition ratePerMs (rate : float) : option Z :=
  floor_BigInt (rate * 1000)%float.

(** ** Running totals *)

(** A binary64 value that a sum of amounts above 0, started at +0, can be:
    +0, a positive number, +Infinity, or no number; never -0. *)
Definition plus_signed (x : spec_float) : Prop :=
  match x with
  | S754_nan => True
  | S754_zero s | S754_infinity s | S754_finite s _ _ => s = false
  end.

(** A binary64 value that is above 0, or no number. *)
Definition above_zero (x : spec_float) : Prop :=
  match x with
  | S754_nan => True
  | S754_zero _ => False
  | S754_infinity s | S754_finite s _ _ => s = false
  end.

(** ** The CSV export

    The export handler of [script.js] writes each cell between two double
    quotes, with every double quote of [String(cell)] written twice, joins
    the cells of a row with commas and the rows with line feeds.  The cells
    are taken as the strings [String(cell)] gives; a string is the sequence
    of its code units. *)

Definition quote : ascii := "034"%char.
Definition line_feed : ascii := "010"%char.

(** The [replace] of the handler: every double quote is written twice. *)
Fixpoint escape (cell : string) : string :=
  match cell with
  | EmptyString => EmptyString
  | String c rest =>
      if Ascii.eqb c quote then String quote (String quote (escape rest))
      else String c (escape rest)
  end.

Definition csv_cell (cell : string) : string :=
  String quote (escape cell ++ String quote EmptyString).

Definition csv_row (r : list string) : string :=
  String.concat "," (map csv_cell r).

Definition csv (rows : list (list string)) : string :=
  String.concat (String line_feed EmptyString) (map csv_row rows).

(** A reader of quoted CSV, by which the export is shown to keep its rows
    apart: it is at the opening quote of a cell, inside a cell, or just
    after a quote met inside a cell. *)
Inductive Reading : Type :=
  | Opening
  | Inside (cell : string)
  | Closing (cell : string).

Fixpoint read_csv (st : Reading) (row : list string)
    (rows : list (list string)) (s : string) : option (list (list string)) :=
  match s with
  | EmptyString =>
      match st with
      | Closing cell => Some (rows ++ [row ++ [cell]])
      | _ => None
      end
  | String c rest =>
      match st with
      | Opening =>
          if Ascii.eqb c quote then read_csv (Inside EmptyString) row rows rest
          else None
      | Inside cell =>
          if Ascii.eqb c quote then read_csv (Closing cell) row rows rest
          else read_csv (Inside (cell ++ String c EmptyString)) row rows rest
      | Closing cell =>
          if Ascii.eqb c quote
          then read_csv (Inside (cell ++ String quote EmptyString)) row rows
                        rest
          else if Ascii.eqb c ","
          then read_csv Opening (row ++ [cell]) rows rest
          else if Ascii.eqb c line_feed
          then read_csv Opening [] (rows ++ [row ++ [cell]]) rest
          else None
      end
  end.

(** * Properties *)

(** ** The status test *)

Lemma Status_eqb_eq (a b : Status) : Status_eqb a b = true <-> a = b.
Proof. destruct a, b; simpl; split; congruence. Qed.

(** ** Facts about numbers *)

Section Numbers.

Local Open Scope float_scope.

(** A number above 0 is a positive finite number or +Infinity. *)
Lemma positive_cases (x : float) :
  (0 <? x) = true ->
  (exists m e, Prim2SF x = S754_finite false m e)
  \/ Prim2SF x = S754_infinity false.
Proof.
  rewrite ltb_spec. change (Prim2SF 0) with (S754_zero false).
  unfold SFltb, SFcompare.
  destruct (Prim2SF x) as [sg | sg | | sg m e]; try discriminate;
    destruct sg; try discriminate; eauto.
Qed.

Lemma positive_not_nan (x : float) : (0 <? x) = true -> is_nan x = false.
Proof.
  intros H. unfold is_nan. rewrite eqb_spec. unfold SFeqb, SFcompare.
  destruct (positive_cases x H) as [(m & e & ->) | ->]; [|reflexivity].
  now rewrite Z.compare_refl, Pos.compare_cont_refl.
Qed.

Lemma positive_not_le_zero (x : float) :
  (0 <? x) = true -> (x <=? 0) = false.
Proof.
  intros H. rewrite leb_spec. change (Prim2SF 0) with (S754_zero false).
  destruct (positive_cases x H) as [(m & e & ->) | ->]; reflexivity.
Qed.

(** [x - 0] and [0 + x] are [x] itself: nothing is rounded. *)
Lemma sub_zero_positive (x : float) : (0 <? x) = true -> x - 0 = x.
Proof.
  intros H. apply Prim2SF_inj. rewrite sub_spec.
  change (Prim2SF 0) with (S754_zero false).
  destruct (positive_cases x H) as [(m & e & ->) | ->]; reflexivity.
Qed.

Lemma add_zero_positive (x : float) : (0 <? x) = true -> 0 + x = x.
Proof.
  intros H. apply Prim2SF_inj. rewrite add_spec.
  change (Prim2SF 0) with (S754_zero false).
  destruct (positive_cases x H) as [(m & e & ->) | ->]; reflexivity.
Qed.

Lemma max_zero_positive (x : float) : (0 <? x) = true -> JS.max 0 x = x.
Proof.
  intros H. unfold JS.max. rewrite (positive_not_nan x H), H.
  reflexivity.
Qed.

(** A finite number minus itself is +0. *)
Lemma sub_diag_finite (x : float) sg m e :
  Prim2SF x = S754_finite sg m e -> x - x = 0.
Proof.
  intros H. apply Prim2SF_inj. rewrite sub_spec, H.
  change (Prim2SF 0) with (S754_zero false).
  unfold SF64sub, SFsub. rewrite Z.sub_diag. reflexivity.
Qed.

Lemma finite_cases (x : float) :
  is_finite x = true ->
  match Prim2SF x with
  | S754_zero _ | S754_finite _ _ _ => True
  | _ => False
  end.
Proof.
  unfold is_finite, is_nan, is_infinity.
  rewrite !eqb_spec, abs_spec.
  change (Prim2SF infinity) with (S754_infinity false).
  destruct (Prim2SF x) as [sg | sg | | sg m e]; simpl; auto;
    try discriminate.
  destruct sg; discriminate.
Qed.

(** [Math.min(a, t)] with a finite [t] is finite whenever it is above 0. *)
Lemma min_positive_finite (a t : float) :
  is_finite t = true -> (0 <? JS.min a t) = true ->
  exists m e, Prim2SF (JS.min a t) = S754_finite false m e.
Proof.
  intros Ht Hpos. pose proof (finite_cases t Ht) as Hfin.
  destruct (positive_cases _ Hpos) as [Hf | Hinf]; [exact Hf | exfalso].
  revert Hinf Hpos. unfold JS.min.
  destruct (is_nan a || is_nan t); [discriminate|].
  destruct (a <? t) eqn:Hat.
  - intros Ha _. rewrite ltb_spec, Ha in Hat.
    destruct (Prim2SF t) as [sg | sg | | sg m e]; try contradiction;
      discriminate.
  - destruct (t <? a) eqn:Hta.
    + intros Hinf _. rewrite Hinf in Hfin. contradiction.
    + destruct (get_sign a).
      * intros Ha _. rewrite ltb_spec, Ha in Hta.
        destruct (Prim2SF t) as [sg | sg | | sg m e]; try contradiction;
          discriminate.
      * intros Hinf _. rewrite Hinf in Hfin. contradiction.
Qed.

(** The order of numbers. *)
Lemma SFcompare_antisym (x y : spec_float) :
  SFcompare y x = option_map CompOpp (SFcompare x y).
Proof.
  destruct x as [sx | sx | | sx mx ex], y as [sy | sy | | sy my ey];
    simpl; try reflexivity;
    try (destruct sx; reflexivity); try (destruct sy; reflexivity);
    try (destruct sx, sy; reflexivity).
  pose proof (Pos.compare_cont_antisym mx my Eq) as Hm. simpl in Hm.
  destruct sx, sy; simpl; try reflexivity;
    rewrite (Z.compare_antisym ex ey);
    destruct (ex ?= ey)%Z; simpl; try reflexivity;
    rewrite <- Hm; try reflexivity.
Qed.

Lemma SFcompare_refl (x : spec_float) :
  x <> S754_nan -> SFcompare x x = Some Eq.
Proof.
  destruct x as [sx | sx | | sx mx ex]; simpl; try congruence; intros _.
  - now destruct sx.
  - destruct sx; now rewrite Z.compare_refl, Pos.compare_cont_refl.
Qed.

Lemma not_nan_SF (x : float) : is_nan x = false -> Prim2SF x <> S754_nan.
Proof.
  unfold is_nan. rewrite eqb_spec. intros H E. rewrite E in H. discriminate.
Qed.

Lemma leb_refl (x : float) : is_nan x = false -> (x <=? x) = true.
Proof.
  intros H. rewrite leb_spec. unfold SFleb.
  now rewrite (SFcompare_refl _ (not_nan_SF x H)).
Qed.

(** [Math.min(a, t)], when a number, is at most [t]. *)
Lemma min_le_r (a t : float) :
  is_nan (JS.min a t) = false -> (JS.min a t <=? t) = true.
Proof.
  unfold JS.min. destruct (is_nan a || is_nan t) eqn:Hn; [discriminate|].
  apply orb_false_iff in Hn as [Ha Ht]. intros _.
  destruct (a <? t) eqn:Hat.
  - rewrite ltb_spec in Hat. rewrite leb_spec. unfold SFltb, SFleb in *.
    now destruct (SFcompare (Prim2SF a) (Prim2SF t)) as [[]|].
  - destruct (t <? a) eqn:Hta; [now apply leb_refl|].
    destruct (get_sign a); [|now apply leb_refl].
    rewrite ltb_spec in Hat, Hta. rewrite leb_spec.
    unfold SFltb, SFleb in *.
    rewrite (SFcompare_antisym (Prim2SF a) (Prim2SF t)) in Hta.
    destruct (SFcompare (Prim2SF a) (Prim2SF t)) as [[]|] eqn:E;
      simpl in *; try discriminate; try reflexivity.
    pose proof (not_nan_SF a Ha) as Na. pose proof (not_nan_SF t Ht) as Nt.
    destruct (Prim2SF a) as [sa | sa | | sa ma ea],
             (Prim2SF t) as [st | st | | st mt et]; try congruence;
      discriminate.
Qed.

(** Rounding keeps the sign it is given. *)
Lemma binary_round_aux_cases sx mx ex lx :
  match binary_round_aux prec emax sx mx ex lx with
  | S754_nan => True
  | S754_zero s | S754_infinity s | S754_finite s _ _ => s = sx
  end.
Proof.
  unfold binary_round_aux.
  destruct (shr_fexp _ _ _ _ _) as [mrs' e'].
  destruct (shr_fexp _ _ _ _ _) as [mrs'' e''].
  destruct (shr_m mrs''); auto. now destruct (_ <=? _)%Z.
Qed.

Lemma nonneg_round mx ex lx :
  nonneg (binary_round_aux prec emax false mx ex lx).
Proof.
  pose proof (binary_round_aux_cases false mx ex lx) as H.
  destruct (binary_round_aux _ _ _ _ _ _); simpl; auto.
Qed.

Lemma nonneg_of_Z (z : Z) : (0 <= z)%Z -> nonneg (Prim2SF (JS.of_Z z)).
Proof.
  destruct z as [|p|p]; [reflexivity| |lia]. intros _. simpl.
  rewrite of_uint63_spec.
  pose proof (Uint63.to_Z_bounded (Uint63.of_Z (Z.pos p))) as [Hb _].
  destruct (Uint63.to_Z _) as [|q|q]; [exact I| |lia].
  unfold binary_normalize, binary_round.
  destruct (shl_align _ _ _). apply nonneg_round.
Qed.

Lemma nonneg_mul (x y : float) :
  nonneg (Prim2SF x) -> nonneg (Prim2SF y) -> nonneg (Prim2SF (x * y)).
Proof.
  rewrite mul_spec. unfold SF64mul, SFmul.
  destruct (Prim2SF x) as [sx | sx | | sx mx ex],
           (Prim2SF y) as [sy | sy | | sy my ey]; simpl; auto;
    try (intros -> ->; reflexivity); try (intros _ ->; reflexivity);
    try (intros -> _; reflexivity).
  intros -> ->. apply nonneg_round.
Qed.

Lemma nonneg_div_1000 (x : float) :
  nonneg (Prim2SF x) -> nonneg (Prim2SF (x / 1000)).
Proof.
  rewrite div_spec. unfold SF64div, SFdiv.
  change (Prim2SF 1000) with (S754_finite false 8796093022208000 (-43)).
  destruct (Prim2SF x) as [sx | sx | | sx mx ex]; simpl; auto.
  - now intros ->.
  - intros ->. destruct (SFdiv_core_binary _ _ _ _ _ _) as [[mz ez] lz].
    apply nonneg_round.
Qed.

Lemma nonneg_min (a t : float) :
  nonneg (Prim2SF a) -> nonneg (Prim2SF t) -> nonneg (Prim2SF (JS.min a t)).
Proof.
  intros Ha Ht. unfold JS.min.
  destruct (_ || _); [exact I|].
  destruct (a <? t); [exact Ha|].
  destruct (t <? a); [exact Ht|].
  now destruct (get_sign a).
Qed.

Lemma nonneg_leb (x : float) :
  nonneg (Prim2SF x) -> is_nan x = false -> (0 <=? x) = true.
Proof.
  unfold is_nan. rewrite leb_spec, eqb_spec.
  change (Prim2SF 0) with (S754_zero false).
  destruct (Prim2SF x) as [sx | sx | | sx mx ex]; simpl; auto;
    try discriminate; intros ->; reflexivity.
Qed.

Lemma leb_nonneg (x : float) : (0 <=? x) = true -> nonneg (Prim2SF x).
Proof.
  rewrite leb_spec. change (Prim2SF 0) with (S754_zero false).
  destruct (Prim2SF x) as [sx | sx | | sx mx ex]; simpl; auto;
    destruct sx; auto; discriminate.
Qed.

End Numbers.

(** ** Facts about the store *)

Lemma sweep_settled (now : Z) (s : Stream) :
  status s <> Active -> sweep now s = s.
Proof. unfold sweep. destruct (status s); simpl; congruence. Qed.

Lemma find_stream_id (i : Z) (l : Streams) (s : Stream) :
  find_stream i l = Some s -> id s = i.
Proof.
  unfold find_stream. intros H. apply find_some in H.
  now apply Z.eqb_eq.
Qed.

Lemma find_update_first (i : Z) (l : Streams) (s s' : Stream) :
  find_stream i l = Some s -> id s' = i ->
  find_stream i (update_first i s' l) = Some s'.
Proof.
  unfold find_stream. intros H Hid.
  induction l as [|x rest IH]; simpl in *; [discriminate|].
  destruct (id x =? i) eqn:E; simpl.
  - now rewrite Hid, Z.eqb_refl.
  - rewrite E. auto.
Qed.

Lemma find_updateStatuses (i now : Z) (l : Streams) :
  find_stream i (updateStatuses now l)
  = option_map (sweep now) (find_stream i l).
Proof.
  unfold find_stream.
  induction l as [|x rest IH]; simpl; [reflexivity|].
  assert (id (sweep now x) = id x) as ->.
  { unfold sweep. now destruct (_ && _). }
  now destruct (id x =? i).
Qed.

Lemma nth_updateStatuses (now : Z) (l : Streams) (n : nat) :
  nth_error (updateStatuses now l) n = option_map (sweep now) (nth_error l n).
Proof.
  revert n. induction l as [|x rest IH]; intros [|n]; simpl; auto.
Qed.

Lemma length_updateStatuses (now : Z) (l : Streams) :
  List.length (updateStatuses now l) = List.length l.
Proof. induction l; simpl; congruence. Qed.

Lemma length_update_first (i : Z) (s' : Stream) (l : Streams) :
  List.length (update_first i s' l) = List.length l.
Proof.
  induction l as [|x rest IH]; simpl; [reflexivity|].
  destruct (id x =? i); simpl; congruence.
Qed.

(** Replacing the stream [find] returned relates the stores position by
    position, by any reflexive relation that relates old and new stream. *)
Lemma nth_update_first (R : Stream -> Stream -> Prop) i l s s' :
  (forall x, R x x) -> find_stream i l = Some s -> R s s' ->
  forall n x, nth_error l n = Some x ->
    exists x', nth_error (update_first i s' l) n = Some x' /\ R x x'.
Proof.
  intros Hrefl Hfind HR. unfold find_stream in Hfind.
  induction l as [|y rest IH]; intros n x Hn.
  - destruct n; discriminate.
  - simpl in *. destruct (id y =? i) eqn:E.
    + injection Hfind as ->. destruct n; simpl in *.
      * injection Hn as ->. eauto.
      * eauto.
    + destruct n; simpl in *.
      * injection Hn as ->. eauto.
      * eauto.
Qed.

(** ** The evolution relation *)

Lemma evolves_refl claims s : evolves claims s s.
Proof. constructor; auto; lia. Qed.

Lemma evolves_trans claims s1 s2 s3 :
  evolves claims s1 s2 -> evolves claims s2 s3 -> evolves claims s1 s3.
Proof.
  intros [] []. constructor; try congruence; auto; try lia.
  - intros Hs. assert (status s2 <> Active) as H2.
    { destruct (status s1), (status s2); simpl in *; try congruence; lia. }
    rewrite (ev_cancelledAt1 H2). auto.
  - intros Hc. rewrite (ev_claimed1 Hc). auto.
Qed.

Lemma evolves_weaken claims s s' : evolves claims s s' -> evolves true s s'.
Proof. intros []. constructor; auto. discriminate. Qed.

Lemma evolves_sweep now s : evolves false s (sweep now s).
Proof.
  unfold sweep. destruct (_ && _) eqn:E; [|apply evolves_refl].
  apply andb_true_iff in E as [E _]. apply Status_eqb_eq in E.
  constructor; simpl; auto; unfold well_formed; simpl; try congruence.
  rewrite E. simpl. lia.
Qed.


Lemma store_evolves_refl claims l : store_evolves claims l l.
Proof. intros n s H. exists s. split; auto using evolves_refl. Qed.

Lemma store_evolves_trans claims l1 l2 l3 :
  store_evolves claims l1 l2 -> store_evolves claims l2 l3 ->
  store_evolves claims l1 l3.
Proof.
  intros H12 H23 n s Hn.
  destruct (H12 n s Hn) as (s2 & Hn2 & E12).
  destruct (H23 n s2 Hn2) as (s3 & Hn3 & E23).
  exists s3. split; eauto using evolves_trans.
Qed.

Lemma store_evolves_weaken claims l l' :
  store_evolves claims l l' -> store_evolves true l l'.
Proof.
  intros H n s Hn. destruct (H n s Hn) as (s' & ? & ?).
  exists s'. split; eauto using evolves_weaken.
Qed.

Lemma updateStatuses_evolves now l :
  store_evolves false l (updateStatuses now l).
Proof.
  intros n s Hn. exists (sweep now s).
  rewrite nth_updateStatuses, Hn. split; auto using evolves_sweep.
Qed.

Lemma cancelStream_evolves i now now_render l :
  store_evolves false l (fst (cancelStream i now now_render l)).
Proof.
  unfold cancelStream.
  destruct (find_stream i l) as [s|] eqn:Hf; [|apply store_evolves_refl].
  destruct (Status_eqb (status s) Active) eqn:Hs; simpl;
    [|apply store_evolves_refl].
  apply Status_eqb_eq in Hs.
  eapply store_evolves_trans; [|apply updateStatuses_evolves].
  intros n x Hn.
  eapply nth_update_first; eauto using evolves_refl.
  destruct (JS.geb _ _); constructor; simpl; auto;
    unfold well_formed; simpl; try congruence; rewrite Hs; simpl; lia.
Qed.

Lemma claimForStream_evolves i caller now now_paid now_render l :
  store_evolves true l
    (fst (claimForStream i caller now now_paid now_render l)).
Proof.
  unfold claimForStream.
  destruct (find_stream i l) as [s|] eqn:Hf; [|apply store_evolves_refl].
  destruct (_ || _); [apply store_evolves_refl|].
  destruct (_ <=? _)%float; [apply store_evolves_refl|]. simpl.
  eapply store_evolves_trans;
    [|eapply store_evolves_weaken, updateStatuses_evolves].
  intros n x Hn.
  eapply nth_update_first; eauto using evolves_refl.
  destruct (JS.geb _ _); constructor; simpl; auto;
    unfold well_formed; simpl; try congruence; try lia.
  destruct (status s); simpl; lia.
Qed.

Lemma claimAll_stream_evolves name now now_paid acc s :
  evolves true s (fst (claimAll_stream name now now_paid acc s)).
Proof.
  unfold claimAll_stream.
  destruct (_ && _); [|apply evolves_refl].
  destruct (JS.gtb _ _); [|apply evolves_refl]. simpl.
  destruct (JS.geb _ _); constructor; simpl; auto;
    unfold well_formed; simpl; try congruence; try lia.
  destruct (status s); simpl; lia.
Qed.

Lemma claimAll_loop_evolves name now now_paid k acc l :
  store_evolves true l (fst (claimAll_loop name now now_paid k acc l)).
Proof.
  revert k acc. induction l as [|x rest IH]; intros k acc n s Hn.
  - destruct n; discriminate.
  - destruct n; simpl in *.
    + injection Hn as <-. eauto using claimAll_stream_evolves.
    + apply IH, Hn.
Qed.

Lemma length_claimAll_loop name now now_paid k acc l :
  List.length (fst (claimAll_loop name now now_paid k acc l)) = List.length l.
Proof.
  revert k acc. induction l as [|x rest IH]; intros k acc; simpl; auto.
Qed.

Lemma claimAll_evolves name now now_paid now_render l :
  store_evolves true l (fst (claimAll name now now_paid now_render l)).
Proof.
  unfold claimAll, renderAll.
  destruct (negb _); simpl; [apply store_evolves_refl|].
  eapply store_evolves_trans; [apply claimAll_loop_evolves|].
  eapply store_evolves_weaken, updateStatuses_evolves.
Qed.

Lemma create_evolves uid created r st en tot l :
  store_evolves false l (create uid created r st en tot l).
Proof.
  intros n s Hn. exists s. split; [|apply evolves_refl].
  unfold create. rewrite nth_error_app1; auto.
  apply nth_error_Some. congruence.
Qed.

Lemma step_evolves op l : store_evolves (is_claim op) l (step l op).
Proof.
  destruct op; simpl.
  - apply create_evolves.
  - apply claimForStream_evolves.
  - apply claimAll_evolves.
  - apply cancelStream_evolves.
  - apply updateStatuses_evolves.
Qed.

Lemma run_evolves ops l : store_evolves true l (run ops l).
Proof.
  revert l. induction ops as [|op ops IH]; intros l; simpl.
  - apply store_evolves_refl.
  - eapply store_evolves_trans; [|apply IH].
    eapply store_evolves_weaken, step_evolves.
Qed.

(** ** Well-formedness of reachable stores *)

Lemma store_evolves_well_formed claims l l' :
  store_evolves claims l l' -> List.length l' = List.length l ->
  Forall well_formed l -> Forall well_formed l'.
Proof.
  intros Hev Hlen Hwf. apply Forall_forall. intros x' Hin.
  apply In_nth_error in Hin as (n & Hn).
  assert (n < List.length l)%nat as Hlt.
  { rewrite <- Hlen. apply nth_error_Some. congruence. }
  apply nth_error_Some in Hlt.
  destruct (nth_error l n) as [x|] eqn:Hx; [|congruence].
  destruct (Hev n x Hx) as (x'' & Hn' & E).
  assert (x'' = x') as -> by congruence.
  apply (ev_well_formed _ _ _ E).
  rewrite Forall_forall in Hwf. apply Hwf. eapply nth_error_In; eauto.
Qed.

Lemma length_cancelStream i now now_render l :
  List.length (fst (cancelStream i now now_render l)) = List.length l.
Proof.
  unfold cancelStream, renderAll.
  destruct (find_stream i l); [|reflexivity].
  destruct (negb _); simpl; [reflexivity|].
  now rewrite length_updateStatuses, length_update_first.
Qed.

Lemma length_claimForStream i caller now now_paid now_render l :
  List.length (fst (claimForStream i caller now now_paid now_render l))
  = List.length l.
Proof.
  unfold claimForStream, renderAll.
  destruct (find_stream i l); [|reflexivity].
  destruct (_ || _); [reflexivity|].
  destruct (_ <=? _)%float; simpl; [reflexivity|].
  now rewrite length_updateStatuses, length_update_first.
Qed.

Lemma length_claimAll name now now_paid now_render l :
  List.length (fst (claimAll name now now_paid now_render l)) = List.length l.
Proof.
  unfold claimAll, renderAll. destruct (negb _); simpl; [reflexivity|].
  now rewrite length_updateStatuses, length_claimAll_loop.
Qed.

Lemma step_well_formed op l :
  Forall well_formed l -> Forall well_formed (step l op).
Proof.
  intros Hwf. pose proof (step_evolves op l) as Hev.
  destruct op; simpl in *.
  - unfold create. apply Forall_app. split; [exact Hwf|].
    constructor; [|constructor]. intros _. reflexivity.
  - eapply store_evolves_well_formed; eauto using length_claimForStream.
  - eapply store_evolves_well_formed; eauto using length_claimAll.
  - eapply store_evolves_well_formed; eauto using length_cancelStream.
  - eapply store_evolves_well_formed; eauto using length_updateStatuses.
Qed.

Lemma run_well_formed ops l :
  Forall well_formed l -> Forall well_formed (run ops l).
Proof.
  revert l. induction ops as [|op ops IH]; intros l Hwf; simpl; auto.
  apply IH, step_well_formed, Hwf.
Qed.

Lemma reachable_well_formed l : reachable l -> Forall well_formed l.
Proof. intros (ops & <-). apply run_well_formed. constructor. Qed.

(** ** The accrual engine against the specification's formula *)

(** [calcAccrued] is the specification's [accrued] on every stream whose
    cancellation instant is not the epoch itself. *)
Lemma calcAccrued_spec (s : Stream) (now : Z) :
  cancelledAt s <> Some 0 -> calcAccrued s now = Spec.accrued s now.
Proof.
  intros H. unfold calcAccrued, Spec.accrued, Spec.effectiveEnd, JS.truthy_ms.
  destruct (now <=? start s); [reflexivity|].
  destruct (cancelledAt s) as [c|]; [|reflexivity].
  destruct (Z.eqb_spec c 0) as [->|]; [congruence|reflexivity].
Qed.

(** The hypothesis of [calcAccrued_spec] cannot be dropped: [calcAccrued]
    tests [cancelledAt] for truthiness, and the epoch instant 0 is the one
    instant that is falsy.  No stream of a running page has it: [cancelledAt]
    is written from [Date.now()] alone, and [loadStreams] reads a stored 0
    back as null. *)
Remark calcAccrued_at_epoch :
  exists s,
    find_stream 7 cancelled_at_epoch = Some s
    /\ cancelledAt s = Some 0
    /\ Spec.accrued s 1000 = 1%float
    /\ calcAccrued s 1000 = 2%float.
Proof. eexists; repeat split. Qed.

(** C1: for every stream and instant, the accrued amount [calcAccrued]
    computes is the specification's: 0 when [now <= start], and otherwise
    min(rate * (min(now, effectiveEnd) - start), total) with the elapsed time
    in seconds, where effectiveEnd = min(end, cancelledAt) when cancelledAt is
    set and end otherwise.  The cancellation instant is a reading of the
    clock, which is not the epoch instant 0. *)
Theorem calcAccrued_formula (s : Stream) (now : Z) :
  cancelledAt s <> Some 0 ->
  calcAccrued s now = Spec.accrued s now
  /\ (now <= start s -> calcAccrued s now = 0%float)
  /\ (start s < now ->
      calcAccrued s now
      = JS.min (rate s * (JS.of_Z (Z.min now (Spec.effectiveEnd s) - start s)
                          / 1000))%float
               (total s))
  /\ (forall c, cancelledAt s = Some c ->
        Spec.effectiveEnd s = Z.min (end_ s) c)
  /\ (cancelledAt s = None -> Spec.effectiveEnd s = end_ s).
Proof.
  intros H. rewrite (calcAccrued_spec s now H). unfold Spec.accrued.
  repeat split.
  - intros Hle. apply Z.leb_le in Hle. now rewrite Hle.
  - intros Hlt. apply Z.leb_gt in Hlt. now rewrite Hlt.
  - intros c Hc. unfold Spec.effectiveEnd. now rewrite Hc.
  - intros Hc. unfold Spec.effectiveEnd. now rewrite Hc.
Qed.

Lemma calcAccrued_formula_witness :
  calcAccrued
    (mkStream 7 "You (Local)" "bob" 100 1 0 100000 (Some 30000) 0
              Cancelled 0) 50000
  = 30%float.
Proof.
  destruct (calcAccrued_formula
              (mkStream 7 "You (Local)" "bob" 100 1 0 100000 (Some 30000) 0
                        Cancelled 0) 50000) as (H & _).
  - discriminate.
  - rewrite H. reflexivity.
Defined.

(** C2 (fails on the code): a claim in the middle of an uncancelled stream
    that leaves claimed below total leaves the status Active.  The
    specification's scenario 2: total 100 over 100 seconds, claimed at 50
    seconds.  The claim pays 50, and the Paid test compares the new claimed
    with min(total, accrued) = 50 when its [Date.now()] falls in the same
    millisecond, so the stream is marked Paid with half of its principal
    still to accrue, and a cancel that follows is refused.  (Only if the
    clock ticks between the two reads has more accrued, 50.001, than
    claimed + 1e-6, and the stream stays Active.) *)
Theorem midstream_claim_marks_paid :
  claimForStream 7 "bob" 50000 50000 50000 scenario
  = ([mkStream 7 "You (Local)" "bob" 100 1 0 100000 None 50 Paid 0],
     Some (Claimed 50))
  /\ (50 <? 100)%float = true
  /\ 50000 < 100000
  /\ snd (cancelStream 7 60000 60000
            (fst (claimForStream 7 "bob" 50000 50000 50000 scenario)))
     = Some NotActive
  /\ fst (claimForStream 7 "bob" 50000 50001 50001 scenario)
     = [mkStream 7 "You (Local)" "bob" 100 1 0 100000 None 50 Active 0].
Proof. repeat split. Qed.

(** The accrued amount is within 0 and the total on every stream whose rate
    and total are not below 0 and whose window and cancellation do not end
    before its start, whenever it is a number. *)
Lemma calcAccrued_bounds (s : Stream) (now : Z) :
  (0 <=? rate s)%float = true -> (0 <=? total s)%float = true ->
  start s <= end_ s ->
  (forall c, cancelledAt s = Some c -> start s <= c) ->
  is_nan (calcAccrued s now) = false ->
  (0 <=? calcAccrued s now)%float = true
  /\ (calcAccrued s now <=? total s)%float = true.
Proof.
  intros Hrate Htotal Hend Hcancel. unfold calcAccrued.
  destruct (Z.leb_spec now (start s)) as [Hle | Hlt]; [auto|].
  set (effectiveEnd := match _ with Some c => Z.min (end_ s) c | None => _ end).
  assert (start s <= effectiveEnd) as Heff.
  { subst effectiveEnd. destruct (cancelledAt s) as [c|]; [|exact Hend].
    specialize (Hcancel c eq_refl). destruct (JS.truthy_ms c); lia. }
  intros Hnan. split; [|now apply min_le_r].
  apply nonneg_leb; [|exact Hnan].
  apply nonneg_min; [|now apply leb_nonneg].
  apply nonneg_mul; [now apply leb_nonneg|].
  apply nonneg_div_1000, nonneg_of_Z. lia.
Qed.

(** C7 (fails on the code): 0 <= accrued(s, now) <= total on every reachable
    stream.  A stream of total 1 over the second from instant 1000 to 2000
    is cancelled at instant 500, before it starts; at instant 1500 the
    elapsed time is 500 - 1000 milliseconds and the accrued amount -0.5.
    The upper bound stands, and so does the lower one on the streams whose
    window and cancellation do not end before their start. *)
Theorem accrued_negative_after_early_cancel :
  (reachable cancelled_early
   /\ exists s,
        find_stream 7 cancelled_early = Some s
        /\ calcAccrued s 1500 = (-0.5)%float
        /\ (0 <=? calcAccrued s 1500)%float = false)
  /\ (forall s now,
        (0 <=? rate s)%float = true -> (0 <=? total s)%float = true ->
        start s <= end_ s ->
        (forall c, cancelledAt s = Some c -> start s <= c) ->
        is_nan (calcAccrued s now) = false ->
        (0 <=? calcAccrued s now)%float = true
        /\ (calcAccrued s now <=? total s)%float = true).
Proof.
  split; [|exact calcAccrued_bounds].
  split; [eexists; reflexivity|]. eexists. repeat split.
Qed.

(** ** Cancellation *)

(** C3: on an Active stream cancel succeeds: it sets cancelledAt to now,
    leaves claimed (and every other field but status) as it was, sets the
    status to Paid when claimed + 1e-6 >= accrued(s, now) and to Cancelled
    otherwise, and reports total - accrued(s, now) as returned to the
    sender. *)
Theorem cancelStream_active i now now_render streams s :
  find_stream i streams = Some s -> status s = Active ->
  exists s',
    snd (cancelStream i now now_render streams)
    = Some (StreamCancelled (total s - calcAccrued s now))
    /\ find_stream i (fst (cancelStream i now now_render streams)) = Some s'
    /\ cancelledAt s' = Some now
    /\ claimed s' = claimed s
    /\ status s'
       = (if JS.geb (claimed s + eps) (calcAccrued s now)
          then Paid else Cancelled)
    /\ s' = set_cancelledAt (set_status s (status s')) (Some now).
Proof.
  intros Hf Hs. unfold cancelStream, renderAll. rewrite Hf, Hs. simpl.
  set (s' := if JS.geb _ _ then _ else _).
  exists s'. split; [reflexivity|].
  assert (status s' <> Active) as Hna by (subst s'; now destruct (JS.geb _ _)).
  split.
  - rewrite find_updateStatuses, (find_update_first i streams s s' Hf).
    + simpl. now rewrite sweep_settled.
    + subst s'. apply find_stream_id in Hf. now destruct (JS.geb _ _).
  - subst s'. destruct (JS.geb _ _); repeat split.
Qed.

Lemma cancelStream_active_witness :
  exists s',
    snd (cancelStream 7 30000 30000 scenario) = Some (StreamCancelled 70)
    /\ find_stream 7 (fst (cancelStream 7 30000 30000 scenario)) = Some s'
    /\ cancelledAt s' = Some 30000
    /\ claimed s' = 0%float
    /\ status s' = Cancelled.
Proof.
  destruct (cancelStream_active 7 30000 30000 scenario
              (mkStream 7 "You (Local)" "bob" 100 1 0 100000 None 0 Active 0)
              eq_refl eq_refl)
    as (s' & Ha & Hf & Hc & Hcl & Hst & _).
  exists s'. repeat split; assumption.
Defined.

(** ** The reconciler *)

(** C9: a sweep at instant now sets the status to Paid on every Active
    stream with now >= end, whatever it has claimed, changes no other field
    and no other stream, and a second sweep at the same instant changes
    nothing. *)
Theorem updateStatuses_sweep now streams :
  List.length (updateStatuses now streams) = List.length streams
  /\ (forall n s, nth_error streams n = Some s ->
        exists s',
          nth_error (updateStatuses now streams) n = Some s'
          /\ (status s = Active /\ end_ s <= now ->
                status s' = Paid /\ s' = set_status s Paid)
          /\ (~ (status s = Active /\ end_ s <= now) -> s' = s))
  /\ updateStatuses now (updateStatuses now streams)
     = updateStatuses now streams.
Proof.
  split; [apply length_updateStatuses|]. split.
  - intros n s Hn. exists (sweep now s).
    rewrite nth_updateStatuses, Hn. split; [reflexivity|].
    unfold sweep. split.
    + intros [Hs He]. rewrite Hs. simpl.
      apply Z.leb_le in He. rewrite He. auto.
    + intros Hno. destruct (_ && _) eqn:E; [|reflexivity].
      apply andb_true_iff in E as [E1 E2].
      apply Status_eqb_eq in E1. apply Z.leb_le in E2. tauto.
  - induction streams as [|s rest IH]; simpl; [reflexivity|].
    rewrite IH. f_equal. unfold sweep.
    destruct (Status_eqb (status s) Active && (end_ s <=? now)) eqn:E;
      simpl; [reflexivity|].
    now rewrite E.
Qed.

Lemma updateStatuses_sweep_witness :
  updateStatuses 100000 scenario = swept
  /\ updateStatuses 100000 swept = swept.
Proof.
  destruct (updateStatuses_sweep 100000 scenario) as (_ & _ & Hidem).
  split; [reflexivity|exact Hidem].
Defined.

(** ** Failures of cancel *)

(** C4 (as stated, fails): cancel fails with Unauthorized when the caller is
    not the sender.  [cancelStream] takes the id alone: a caller who is not
    the stream's sender, for whom the specification's cancel fails with
    Unauthorized, cancels the scenario stream at 30 seconds all the same. *)
Lemma cancel_needs_no_authority :
  Spec.cancel_failure 7 "mallory" scenario = Some Spec.Unauthorized
  /\ cancelStream 7 30000 30000 scenario
     = ([mkStream 7 "You (Local)" "bob" 100 1 0 100000 (Some 30000) 0
                  Cancelled 0],
        Some (StreamCancelled 70))
  /\ fst (cancelStream 7 30000 30000 scenario) <> scenario.
Proof. repeat split. discriminate. Qed.

(** C4 (amended): cancel on an unknown id returns without an alert and
    changes nothing; cancel on a stream that is not Active alerts
    "Not active" and changes nothing; on an Active stream it succeeds for
    whoever calls it; and the alert alone tells the three outcomes apart. *)
Theorem cancelStream_failures i now now_render streams :
  (find_stream i streams = None ->
     cancelStream i now now_render streams = (streams, None))
  /\ (forall s, find_stream i streams = Some s -> status s <> Active ->
        cancelStream i now now_render streams = (streams, Some NotActive))
  /\ (snd (cancelStream i now now_render streams) = None
      <-> find_stream i streams = None)
  /\ (snd (cancelStream i now now_render streams) = Some NotActive
      <-> exists s, find_stream i streams = Some s /\ status s <> Active)
  /\ ((exists returned, snd (cancelStream i now now_render streams)
                        = Some (StreamCancelled returned))
      <-> exists s, find_stream i streams = Some s /\ status s = Active).
Proof.
  unfold cancelStream.
  destruct (find_stream i streams) as [s|] eqn:Hf;
    [destruct (status s) eqn:Hs; simpl|];
    repeat split; intros;
    repeat match goal with
      | H : exists _, _ |- _ => destruct H
      | H : _ /\ _ |- _ => destruct H
      | H : Some _ = Some _ |- _ => injection H as H; subst
      end;
    try discriminate; try congruence; eauto.
  all: exists s; split; congruence.
Qed.

Lemma cancelStream_failures_witness :
  cancelStream 8 30000 30000 swept = (swept, None)
  /\ cancelStream 7 100000 100000 swept = (swept, Some NotActive).
Proof.
  destruct (cancelStream_failures 8 30000 30000 swept) as (Hnone & _).
  destruct (cancelStream_failures 7 100000 100000 swept) as (_ & Hna & _).
  split.
  - apply Hnone. reflexivity.
  - apply (Hna (mkStream 7 "You (Local)" "bob" 100 1 0 100000 None 0 Paid 0)).
    + reflexivity.
    + discriminate.
Defined.

(** ** Paid streams *)




(** ** The cancellation instant *)

(** C6 (as stated, fails): cancelledAt >= start.  [cancelStream] records the
    instant of the call whatever the window: the stream that starts at
    instant 1000 and is cancelled at instant 500 keeps cancelledAt = 500. *)
Lemma cancelledAt_before_start :
  reachable cancelled_early
  /\ exists s,
       nth_error cancelled_early 0 = Some s
       /\ cancelledAt s = Some 500
       /\ start s = 1000
       /\ ~ 500 >= 1000.
Proof.
  split; [eexists; reflexivity|]. eexists. repeat split. lia.
Qed.

(** C6 (amended): in every store the operations can build, a cancelledAt
    that is set is the same after every later sequence of operations. *)
Theorem cancelledAt_is_final streams later n s c :
  reachable streams ->
  nth_error streams n = Some s -> cancelledAt s = Some c ->
  exists s',
    nth_error (run later streams) n = Some s' /\ cancelledAt s' = Some c.
Proof.
  intros Hr Hn Hc.
  assert (status s <> Active) as Hna.
  { pose proof (reachable_well_formed _ Hr) as Hwf.
    rewrite Forall_forall in Hwf.
    intros Ha. apply nth_error_In in Hn.
    specialize (Hwf s Hn Ha). congruence. }
  destruct (run_evolves later streams n s Hn) as (s' & Hn' & E).
  exists s'. split; [exact Hn'|].
  rewrite (ev_cancelledAt _ _ _ E Hna). exact Hc.
Qed.

Lemma cancelledAt_is_final_witness :
  exists s',
    nth_error (run [Claim 7 "bob" 1500 1500 1500; Cancel 7 1600 1600;
                    Reconcile 3000] cancelled_early) 0 = Some s'
    /\ cancelledAt s' = Some 500.
Proof.
  apply (cancelledAt_is_final cancelled_early _ 0
           (mkStream 7 "You (Local)" "bob" 1 1 1000 2000 (Some 500) 0 Paid 0)
           500).
  - exists [Create 7 0 "bob" 1000 2000 (Some 1%float); Cancel 7 500 500].
    reflexivity.
  - reflexivity.
  - reflexivity.
Defined.

(** ** Creation *)

(** C8 (as stated, fails): create fails with InvalidStreamParameters when
    total <= 0 or end <= start.  [createStreamObject] builds an Active stream
    from a total of -5 (at the fixed rate of 1 per minute) and from a window
    that ends a minute before it starts (over a duration of 1 second), where
    the specification's create fails. *)
Lemma create_accepts_invalid_parameters :
  Spec.create 7 0 "You (Local)" "bob" (-5) 0 60000
  = inl Spec.InvalidStreamParameters
  /\ createStreamObject 7 0 "bob" 0 60000 (Some (-5)%float)
     = mkStream 7 "You (Local)" "bob" 1 (1 / 60) 0 60000 None 0 Active 0
  /\ Spec.create 7 0 "You (Local)" "bob" 5 60000 0
     = inl Spec.InvalidStreamParameters
  /\ createStreamObject 7 0 "bob" 60000 0 (Some 5%float)
     = mkStream 7 "You (Local)" "bob" 5 5 60000 0 None 0 Active 0
  /\ Spec.create 7 0 "You (Local)" "bob" 5 60000 0
     <> inr (createStreamObject 7 0 "bob" 60000 0 (Some 5%float)).
Proof. repeat split. discriminate. Qed.

(** C8 (amended): [createStreamObject] never fails.  It always produces an
    Active stream with claimed 0 and no cancelledAt over the window given;
    with a total above 0 the total is kept and rate = total / seconds, the
    duration in seconds clamped to a minimum of 1, which is the stream the
    specification's create produces when also start < end; with no total, or
    one not above 0, total is 1 per minute of the duration and rate is 1/60
    per second. *)
Theorem createStreamObject_total uid created who st en totalAda :
  let s := createStreamObject uid created who st en totalAda in
  let seconds := JS.max 1 (JS.of_Z (en - st) / 1000)%float in
  status s = Active /\ claimed s = 0%float /\ cancelledAt s = None
  /\ id s = uid /\ recipient s = who /\ start s = st /\ end_ s = en
  /\ (forall t, totalAda = Some t -> (0 <? t)%float = true ->
        total s = t /\ rate s = (t / seconds)%float
        /\ (st < en ->
            Spec.create uid created "You (Local)" who t st en = inr s))
  /\ (totalAda = None
      \/ (exists t, totalAda = Some t /\ (0 <? t)%float = false) ->
        total s = (FIXED_PER_MINUTE * (seconds / 60))%float
        /\ rate s = (FIXED_PER_MINUTE / 60)%float).
Proof.
  cbv zeta. do 7 (split; [reflexivity|]). split.
  - intros t -> Ht. unfold createStreamObject, JS.gtb. simpl. rewrite Ht.
    do 2 (split; [reflexivity|]).
    intros Hlt. unfold Spec.create.
    rewrite (positive_not_le_zero t Ht). apply Z.leb_gt in Hlt.
    now rewrite Hlt.
  - unfold createStreamObject, JS.gtb.
    intros [-> | (t & -> & Ht)]; simpl; [|rewrite Ht]; split; reflexivity.
Qed.

Lemma createStreamObject_total_witness :
  Spec.create 7 0 "You (Local)" "bob" 100 0 100000
  = inr (createStreamObject 7 0 "bob" 0 100000 (Some 100%float))
  /\ rate (createStreamObject 7 0 "bob" 0 100000 (Some 100%float)) = 1%float.
Proof.
  destruct (createStreamObject_total 7 0 "bob" 0 100000 (Some 100%float))
    as (_ & _ & _ & _ & _ & _ & _ & Hvalid & _).
  destruct (Hvalid 100%float eq_refl eq_refl) as (_ & _ & Hspec).
  split; [apply Hspec; lia | reflexivity].
Defined.

(** ** Claims *)

Section ClaimNumbers.

Local Open Scope float_scope.

Lemma max_zero_positive_inv (y : float) :
  (0 <? JS.max 0 y) = true -> (0 <? y) = true.
Proof.
  unfold JS.max. destruct (is_nan 0 || is_nan y); [discriminate|].
  destruct (0 <? y); [reflexivity|].
  destruct (y <? 0); [discriminate|].
  change (get_sign 0) with false. cbv iota. discriminate.
Qed.

Lemma sub_zero_positive_inv (x : float) :
  (0 <? x - 0) = true -> (0 <? x) = true.
Proof.
  rewrite !ltb_spec, sub_spec. change (Prim2SF 0) with (S754_zero false).
  destruct (Prim2SF x) as [sg | sg | | sg m e]; try discriminate;
    destruct sg; auto.
Qed.

(** An accrued amount above 0 on a stream of finite total is finite. *)
Lemma calcAccrued_positive_finite (s : Stream) (now : Z) :
  is_finite (total s) = true -> (0 <? calcAccrued s now) = true ->
  exists m e, Prim2SF (calcAccrued s now) = S754_finite false m e.
Proof.
  unfold calcAccrued. destruct (now <=? start s)%Z; [discriminate|].
  apply min_positive_finite.
Qed.

End ClaimNumbers.

(** What a claim that passes its three tests does. *)
Lemma claimForStream_success i caller now now_paid now_render streams s :
  find_stream i streams = Some s ->
  JS.truthy_string caller = true ->
  JS.toLowerCase caller = JS.toLowerCase (recipient s) ->
  (claimable s now <=? 0)%float = false ->
  claimForStream i caller now now_paid now_render streams
  = (let s1 := set_claimed s (claimed s + claimable s now)%float in
     let s2 :=
       if JS.geb (claimed s1 + eps)%float
                 (JS.min (total s1) (calcAccrued s1 now_paid))
       then set_status s1 Paid else s1 in
     (updateStatuses now_render (update_first i s2 streams),
      Some (Claimed (claimable s now)))).
Proof.
  intros Hf Hcaller Hrec Hpos. unfold claimForStream, renderAll.
  rewrite Hf. cbv beta iota.
  rewrite Hcaller, Hrec, String.eqb_refl. simpl negb. simpl orb.
  cbv beta iota. fold (claimable s now). rewrite Hpos. reflexivity.
Qed.

(** A claim with nothing claimable changes nothing. *)
Lemma claimForStream_nothing i caller now now_paid now_render streams s :
  find_stream i streams = Some s ->
  JS.truthy_string caller = true ->
  JS.toLowerCase caller = JS.toLowerCase (recipient s) ->
  (claimable s now <=? 0)%float = true ->
  claimForStream i caller now now_paid now_render streams
  = (streams, Some NothingToClaim).
Proof.
  intros Hf Hcaller Hrec Hpos. unfold claimForStream.
  rewrite Hf. cbv beta iota.
  rewrite Hcaller, Hrec, String.eqb_refl. simpl negb. simpl orb.
  cbv beta iota. fold (claimable s now). rewrite Hpos. reflexivity.
Qed.

(** C10 (as stated, fails): after a successful claim claimed equals
    accrued(s, now) exactly, so a second claim at the same instant cannot
    succeed.  On the stream of total 1 over 10 seconds, claimed at 2 seconds
    and again at 7: the second claim adds 0.7000000000000001 - 0.2, rounded,
    to 0.2, which rounds to 0.7, below the accrued 0.7000000000000001; a
    third claim at the same instant succeeds. *)
Lemma second_claim_is_inexact :
  exists s,
    find_stream 7 claimed_at_seven = Some s
    /\ claimed s = 0x1.6666666666666p-1%float
    /\ calcAccrued s 7000 = 0x1.6666666666667p-1%float
    /\ (claimed s <? calcAccrued s 7000)%float = true
    /\ claimForStream 7 "bob" 7000 7000 7000 claimed_at_seven
       = ([set_claimed s 0x1.6666666666667p-1%float],
          Some (Claimed 0x1p-53%float)).
Proof. eexists. repeat split. Qed.

(** C10 (amended): after the first successful claim on a stream (claimed was
    0) of finite total, made by the recipient at instant now, claimed equals
    accrued(s, now) exactly, that amount is the one reported, claimable(s,
    now) is 0, and a second claim at the same instant fails with "Nothing to
    claim" and changes nothing. *)
Theorem first_claim_is_exact i caller now now_paid now_render streams s :
  find_stream i streams = Some s ->
  JS.truthy_string caller = true ->
  JS.toLowerCase caller = JS.toLowerCase (recipient s) ->
  claimed s = 0%float ->
  is_finite (total s) = true ->
  (0 <? claimable s now)%float = true ->
  exists s',
    snd (claimForStream i caller now now_paid now_render streams)
    = Some (Claimed (calcAccrued s now))
    /\ find_stream i (fst (claimForStream i caller now now_paid now_render
                             streams)) = Some s'
    /\ claimed s' = calcAccrued s now
    /\ calcAccrued s' now = calcAccrued s now
    /\ claimable s' now = 0%float
    /\ forall now_paid' now_render',
         claimForStream i caller now now_paid' now_render'
           (fst (claimForStream i caller now now_paid now_render streams))
         = (fst (claimForStream i caller now now_paid now_render streams),
            Some NothingToClaim).
Proof.
  intros Hf Hcaller Hrec Hzero Hfin Hpos.
  assert (claimable s now = calcAccrued s now
          /\ (0 <? calcAccrued s now)%float = true) as (Hcl & Hacc_pos).
  { unfold claimable in *. rewrite Hzero in *.
    apply max_zero_positive_inv, sub_zero_positive_inv in Hpos.
    now rewrite (sub_zero_positive _ Hpos), (max_zero_positive _ Hpos). }
  destruct (calcAccrued_positive_finite s now Hfin Hacc_pos)
    as (m & e & Hacc).
  rewrite (claimForStream_success i caller now now_paid now_render streams s
             Hf Hcaller Hrec)
    by (rewrite Hcl; now apply positive_not_le_zero).
  rewrite Hcl, Hzero, (add_zero_positive _ Hacc_pos). cbv zeta.
  set (s1 := set_claimed s (calcAccrued s now)).
  set (s2 := if JS.geb _ _ then set_status s1 Paid else s1).
  assert (claimed s2 = calcAccrued s now /\ recipient s2 = recipient s
          /\ id s2 = id s /\ calcAccrued s2 now = calcAccrued s now)
    as (Hc2 & Hr2 & Hi2 & Ha2).
  { subst s2 s1. destruct (JS.geb _ _); repeat split. }
  assert (claimed (sweep now_render s2) = calcAccrued s now
          /\ recipient (sweep now_render s2) = recipient s
          /\ calcAccrued (sweep now_render s2) now = calcAccrued s now)
    as (Hc3 & Hr3 & Ha3).
  { unfold sweep. destruct (_ && _); simpl; repeat split; auto. }
  simpl fst. simpl snd.
  assert (find_stream i (updateStatuses now_render (update_first i s2 streams))
          = Some (sweep now_render s2)) as Hf3.
  { rewrite find_updateStatuses, (find_update_first i streams s s2 Hf);
      [reflexivity|].
    rewrite Hi2. eapply find_stream_id; eauto. }
  assert (claimable (sweep now_render s2) now = 0%float) as Hcl3.
  { unfold claimable.
    now rewrite Ha3, Hc3, (sub_diag_finite _ _ _ _ Hacc). }
  exists (sweep now_render s2). repeat split; auto.
  intros now_paid' now_render'.
  apply (claimForStream_nothing _ _ _ _ _ _ _ Hf3 Hcaller).
  - now rewrite Hr3.
  - now rewrite Hcl3.
Qed.

Lemma first_claim_is_exact_witness :
  exists s',
    snd (claimForStream 7 "Bob" 2000 2000 2000 one_over_ten)
    = Some (Claimed 0x1.999999999999ap-3%float)
    /\ find_stream 7 claimed_at_two = Some s'
    /\ claimed s' = 0x1.999999999999ap-3%float.
Proof.
  destruct (first_claim_is_exact 7 "Bob" 2000 2000 2000 one_over_ten
              (mkStream 7 "You (Local)" "bob" 1 0x1.999999999999ap-4 0 10000
                        None 0 Active 0)
              eq_refl eq_refl eq_refl eq_refl eq_refl eq_refl)
    as (s' & Ha & Hf & Hc & _).
  exists s'. repeat split; assumption.
Defined.

(** * Further properties of the front end *)

(** ** Cancelling twice *)

(** What a cancel of an Active stream leaves under its id. *)
Lemma cancelStream_found i now now_render streams s :
  find_stream i streams = Some s -> status s = Active ->
  exists s',
    find_stream i (fst (cancelStream i now now_render streams)) = Some s'
    /\ status s' <> Active
    /\ cancelledAt s' = Some now
    /\ start s' = start s /\ end_ s' = end_ s
    /\ rate s' = rate s /\ total s' = total s.
Proof.
  intros Hf Hs. unfold cancelStream, renderAll. rewrite Hf, Hs. simpl.
  set (s' := if JS.geb _ _ then _ else _).
  assert (status s' <> Active /\ id s' = id s /\ cancelledAt s' = Some now
          /\ start s' = start s /\ end_ s' = end_ s
          /\ rate s' = rate s /\ total s' = total s)
    as (Hna & Hid & Hrest).
  { subst s'. destruct (JS.geb _ _); repeat split; discriminate. }
  exists s'. split; [|auto].
  rewrite find_updateStatuses, (find_update_first i streams s s' Hf).
  - simpl. now rewrite sweep_settled.
  - rewrite Hid. eapply find_stream_id; eauto.
Qed.

(** X3: a stream is cancelled at most once: after a cancel of an Active
    stream, a second cancel of the same id, at any instant, alerts
    "Not active" and leaves the store as the first cancel left it. *)
Theorem cancel_twice_is_refused i now now_render now2 now_render2 streams s :
  find_stream i streams = Some s -> status s = Active ->
  cancelStream i now2 now_render2
    (fst (cancelStream i now now_render streams))
  = (fst (cancelStream i now now_render streams), Some NotActive).
Proof.
  intros Hf Hs.
  destruct (cancelStream_found i now now_render streams s Hf Hs)
    as (s' & Hf' & Hna & _).
  unfold cancelStream at 1. rewrite Hf'.
  destruct (status s'); simpl; congruence.
Qed.

Lemma cancel_twice_is_refused_witness :
  cancelStream 7 40000 40000 (fst (cancelStream 7 30000 30000 scenario))
  = (fst (cancelStream 7 30000 30000 scenario), Some NotActive).
Proof.
  apply (cancel_twice_is_refused 7 30000 30000 40000 40000 scenario
           (mkStream 7 "You (Local)" "bob" 100 1 0 100000 None 0 Active 0));
    reflexivity.
Defined.

(** ** The state machine over histories *)

(** X4: whatever operations follow, a stream keeps its position in the
    store, its id, sender, recipient, total, rate, window and creation
    instant, and its status only moves forward in the order Active,
    Cancelled, Paid. *)
Theorem status_moves_forward ops streams n s :
  nth_error streams n = Some s ->
  exists s',
    nth_error (run ops streams) n = Some s'
    /\ rank (status s) <= rank (status s')
    /\ id s' = id s /\ sender s' = sender s /\ recipient s' = recipient s
    /\ total s' = total s /\ rate s' = rate s
    /\ start s' = start s /\ end_ s' = end_ s
    /\ createdAt s' = createdAt s.
Proof.
  intros Hn. destruct (run_evolves ops streams n s Hn) as (s' & Hn' & []).
  exists s'. repeat split; assumption.
Qed.

Lemma status_moves_forward_witness :
  exists s',
    nth_error (run [Cancel 7 30000 30000; Claim 7 "bob" 40000 40000 40000]
                   scenario) 0 = Some s'
    /\ rank Active <= rank (status s')
    /\ total s' = 100%float.
Proof.
  destruct (status_moves_forward
              [Cancel 7 30000 30000; Claim 7 "bob" 40000 40000 40000]
              scenario 0
              (mkStream 7 "You (Local)" "bob" 100 1 0 100000 None 0 Active 0)
              eq_refl)
    as (s' & Hn & Hr & _ & _ & _ & Ht & _).
  exists s'. repeat split; assumption.
Defined.

(** ** What every reachable stream satisfies *)

Lemma consistent_sweep now s : consistent s -> consistent (sweep now s).
Proof.
  unfold sweep. destruct (_ && _); [|auto].
  intros (_ & _ & Hs). repeat split; simpl; auto; discriminate.
Qed.

Lemma Forall_update_first (P : Stream -> Prop) i s' l :
  P s' -> Forall P l -> Forall P (update_first i s' l).
Proof.
  intros Hs'. induction 1 as [|x rest Hx Hrest IH]; simpl; [constructor|].
  destruct (id x =? i); constructor; auto.
Qed.

Lemma Forall_updateStatuses (P : Stream -> Prop) now l :
  (forall s, P s -> P (sweep now s)) ->
  Forall P l -> Forall P (updateStatuses now l).
Proof.
  intros Hsweep. induction 1; simpl; constructor; auto.
Qed.

Lemma find_stream_Forall (P : Stream -> Prop) i l s :
  Forall P l -> find_stream i l = Some s -> P s.
Proof.
  intros Hall Hf. unfold find_stream in Hf. apply find_some in Hf as [Hin _].
  rewrite Forall_forall in Hall. auto.
Qed.

Lemma consistent_cancelStream i now now_render l :
  Forall consistent l ->
  Forall consistent (fst (cancelStream i now now_render l)).
Proof.
  intros Hall. unfold cancelStream, renderAll.
  destruct (find_stream i l) as [s|] eqn:Hf; [|exact Hall].
  destruct (negb _); [exact Hall|]. simpl.
  apply Forall_updateStatuses; [apply consistent_sweep|].
  apply Forall_update_first; [|exact Hall].
  destruct (find_stream_Forall _ _ _ _ Hall Hf) as (_ & _ & Hs).
  destruct (JS.geb _ _); repeat split; simpl; auto; discriminate.
Qed.

Lemma consistent_claimed s c st :
  consistent s -> st = status s \/ st = Paid ->
  consistent (set_status (set_claimed s c) st).
Proof.
  intros (Ha & Hc & Hs) [-> | ->]; repeat split; simpl; auto; discriminate.
Qed.

Lemma consistent_claimForStream i caller now now_paid now_render l :
  Forall consistent l ->
  Forall consistent (fst (claimForStream i caller now now_paid now_render l)).
Proof.
  intros Hall. unfold claimForStream, renderAll.
  destruct (find_stream i l) as [s|] eqn:Hf; [|exact Hall].
  destruct (_ || _); [exact Hall|].
  destruct (_ <=? _)%float; [exact Hall|]. simpl.
  apply Forall_updateStatuses; [apply consistent_sweep|].
  apply Forall_update_first; [|exact Hall].
  pose proof (find_stream_Forall _ _ _ _ Hall Hf) as Hs.
  destruct (JS.geb _ _).
  - apply (consistent_claimed s _ Paid Hs). now right.
  - apply (consistent_claimed s _ (status s) Hs). now left.
Qed.

Lemma consistent_claimAll_loop name now now_paid k acc l :
  Forall consistent l ->
  Forall consistent (fst (claimAll_loop name now now_paid k acc l)).
Proof.
  intros Hall. revert k acc.
  induction Hall as [|s rest Hs Hrest IH]; intros k acc; simpl;
    constructor; [|apply IH].
  unfold claimAll_stream.
  destruct (_ && _); [|exact Hs].
  destruct (JS.gtb _ _); [|exact Hs]. simpl.
  destruct (JS.geb _ _).
  - apply (consistent_claimed s _ Paid Hs). now right.
  - apply (consistent_claimed s _ (status s) Hs). now left.
Qed.

Lemma consistent_step op l :
  Forall consistent l -> Forall consistent (step l op).
Proof.
  intros Hall. destruct op; simpl.
  - unfold create. apply Forall_app. split; [exact Hall|].
    constructor; [|constructor]. repeat split; simpl; discriminate.
  - now apply consistent_claimForStream.
  - unfold claimAll, renderAll. destruct (negb _); simpl; [exact Hall|].
    apply Forall_updateStatuses; [apply consistent_sweep|].
    now apply consistent_claimAll_loop.
  - now apply consistent_cancelStream.
  - apply Forall_updateStatuses; [apply consistent_sweep | exact Hall].
Qed.

Lemma consistent_run ops l :
  Forall consistent l -> Forall consistent (run ops l).
Proof.
  revert l. induction ops as [|op ops IH]; intros l Hall; simpl; auto.
  apply IH, consistent_step, Hall.
Qed.

Lemma reachable_consistent streams s :
  reachable streams -> In s streams -> consistent s.
Proof.
  intros (ops & <-) Hin.
  pose proof (consistent_run ops [] (Forall_nil _)) as Hall.
  rewrite Forall_forall in Hall. now apply Hall.
Qed.

(** X5: in every store the operations can build, a stream is Active only
    while it has no cancellation instant, a Cancelled stream has one, and
    every stream has the local sender "You (Local)". *)
Theorem reachable_streams_are_consistent streams n s :
  reachable streams -> nth_error streams n = Some s ->
  (status s = Active -> cancelledAt s = None)
  /\ (status s = Cancelled -> exists c, cancelledAt s = Some c)
  /\ sender s = "You (Local)"%string.
Proof.
  intros Hr Hn.
  assert (consistent s) as (Ha & Hc & Hs)
    by (eapply reachable_consistent, nth_error_In, Hn; exact Hr).
  repeat split; auto.
  intros Hst. specialize (Hc Hst).
  destruct (cancelledAt s) as [c|]; [eauto | congruence].
Qed.

Lemma reachable_streams_are_consistent_witness :
  exists c,
    cancelledAt (mkStream 7 "You (Local)" "bob" 100 1 0 100000 (Some 30000) 0
                          Cancelled 0) = Some c.
Proof.
  destruct (reachable_streams_are_consistent
              (run [Cancel 7 30000 30000] scenario) 0
              (mkStream 7 "You (Local)" "bob" 100 1 0 100000 (Some 30000) 0
                        Cancelled 0))
    as (_ & Hc & _).
  - exists [Create 7 0 "bob" 0 100000 (Some 100%float);
            Cancel 7 30000 30000]. reflexivity.
  - reflexivity.
  - apply Hc. reflexivity.
Defined.

(** ** The buttons *)

(** X7: the Cancel button tells the truth.  For the stream its id finds,
    the row of the sender table carries a Cancel button exactly when a
    click on it, at any instant, cancels the stream: the stream found under
    the id then has the instant of the click as its cancellation instant and
    is no longer Active, and the alert is "Stream cancelled" with the total
    less the amount accrued at the click. *)
Theorem cancel_button_means_cancellable streams s now now_click now_render :
  find_stream (id s) streams = Some s ->
  In (CallCancel (id s)) (streamsTable_actions now s)
  <-> exists s',
        find_stream (id s)
          (fst (cancelStream (id s) now_click now_render streams)) = Some s'
        /\ cancelledAt s' = Some now_click
        /\ status s' <> Active
        /\ snd (cancelStream (id s) now_click now_render streams)
           = Some (StreamCancelled (total s - calcAccrued s now_click)).
Proof.
  intros Hf. split.
  - intros Hbtn.
    assert (status s = Active) as Hs.
    { unfold streamsTable_actions in Hbtn.
      destruct (status s); [reflexivity| |];
        simpl in Hbtn; destruct (_ && _); simpl in Hbtn;
        try destruct Hbtn as [Hbtn | []]; try discriminate; contradiction. }
    destruct (cancelStream_found (id s) now_click now_render streams s Hf Hs)
      as (s' & Hf' & Hna & Hc & _).
    exists s'. repeat split; auto.
    unfold cancelStream. rewrite Hf, Hs. reflexivity.
  - intros (s' & _ & _ & _ & Halert).
    unfold cancelStream in Halert. rewrite Hf in Halert.
    unfold streamsTable_actions.
    destruct (status s); simpl in *; [now left | discriminate | discriminate].
Qed.

Lemma cancel_button_means_cancellable_witness :
  exists s',
    find_stream 7 (fst (cancelStream 7 30000 30000 scenario)) = Some s'
    /\ cancelledAt s' = Some 30000
    /\ status s' <> Active
    /\ snd (cancelStream 7 30000 30000 scenario)
       = Some (StreamCancelled 70).
Proof.
  apply (cancel_button_means_cancellable scenario
           (mkStream 7 "You (Local)" "bob" 100 1 0 100000 None 0 Active 0)
           20000 30000 30000 eq_refl).
  left. reflexivity.
Defined.

(** X8: the recipient view offers a claim only where one can be made.  When
    [renderRecipient] puts a Claim button in the row of a stream that its id
    finds, [claimForStream] called with that id and the looked-up name at
    the same instant succeeds: the claimable amount is above 0, it is added
    to the claimed amount of the stream found under the id, and the alert
    reports it. *)
Theorem claim_button_means_claimable name now now_paid now_render streams s :
  find_stream (id s) streams = Some s ->
  JS.truthy_string name = true ->
  In s (recipient_rows name streams) ->
  In (CallClaim (id s) (escape_apostrophes name))
     (recipient_actions name now s) ->
  exists s',
    find_stream (id s)
      (fst (claimForStream (id s) name now now_paid now_render streams))
    = Some s'
    /\ claimed s' = (claimed s + claimable s now)%float
    /\ (0 <? claimable s now)%float = true
    /\ snd (claimForStream (id s) name now now_paid now_render streams)
       = Some (Claimed (claimable s now)).
Proof.
  intros Hf Hname Hrow Hbtn.
  unfold recipient_rows in Hrow. apply filter_In in Hrow as [_ Hrec].
  apply String.eqb_eq in Hrec.
  unfold recipient_actions in Hbtn. fold (claimable s now) in Hbtn.
  destruct (JS.gtb (claimable s now) 0) eqn:Hpos; [|destruct Hbtn].
  unfold JS.gtb in Hpos.
  rewrite (claimForStream_success _ _ _ _ _ _ _ Hf Hname); auto;
    [|now apply positive_not_le_zero].
  cbv zeta. cbn [fst snd].
  set (s1 := set_claimed s (claimed s + claimable s now)%float).
  set (s2 := if JS.geb _ _ then set_status s1 Paid else s1).
  assert (id s2 = id s /\ claimed s2 = (claimed s + claimable s now)%float)
    as [Hid Hcl] by (subst s2 s1; destruct (JS.geb _ _); split; reflexivity).
  exists (sweep now_render s2). split; [|split; [|split]].
  - rewrite find_updateStatuses, (find_update_first (id s) streams s s2 Hf).
    + reflexivity.
    + rewrite Hid. eapply find_stream_id; eauto.
  - rewrite <- Hcl. unfold sweep. now destruct (_ && _).
  - exact Hpos.
  - reflexivity.
Qed.

Lemma claim_button_means_claimable_witness :
  exists s',
    find_stream 7 (fst (claimForStream 7 "BOB" 50000 50000 50000 scenario))
    = Some s'
    /\ claimed s' = (0 + 50)%float
    /\ (0 <? 50)%float = true
    /\ snd (claimForStream 7 "BOB" 50000 50000 50000 scenario)
       = Some (Claimed 50).
Proof.
  apply (claim_button_means_claimable "BOB" 50000 50000 50000 scenario
           (mkStream 7 "You (Local)" "bob" 100 1 0 100000 None 0 Active 0)).
  - reflexivity.
  - reflexivity.
  - left. reflexivity.
  - left. reflexivity.
Defined.

(** ** When accrual stops *)

(** X9: a cancel freezes the accrual.  After an uncancelled Active stream
    is cancelled at an instant [now] past its start (and other than the
    epoch instant 0), its accrued amount at every later instant is the
    amount accrued at [now], the one the cancel alert subtracted from the
    total. *)
Theorem cancel_freezes_accrual i now now_render streams s :
  find_stream i streams = Some s -> status s = Active ->
  cancelledAt s = None -> start s < now -> now <> 0 ->
  exists s',
    find_stream i (fst (cancelStream i now now_render streams)) = Some s'
    /\ snd (cancelStream i now now_render streams)
       = Some (StreamCancelled (total s - calcAccrued s now))
    /\ forall t, now <= t -> calcAccrued s' t = calcAccrued s now.
Proof.
  intros Hf Hs Hnone Hstart Hnz.
  destruct (cancelStream_found i now now_render streams s Hf Hs)
    as (s' & Hf' & _ & Hc & Hst & Hen & Hra & Hto).
  exists s'. split; [exact Hf'|]. split.
  - unfold cancelStream. now rewrite Hf, Hs.
  - intros t Ht. unfold calcAccrued.
    rewrite Hc, Hst, Hen, Hra, Hto, Hnone. unfold JS.truthy_ms.
    destruct (Z.eqb_spec now 0) as [|_]; [contradiction|].
    simpl negb. cbv beta iota zeta.
    destruct (Z.leb_spec t (start s)); [lia|].
    destruct (Z.leb_spec now (start s)); [lia|].
    replace (Z.min t (Z.min (end_ s) now)) with (Z.min now (end_ s)) by lia.
    reflexivity.
Qed.

Lemma cancel_freezes_accrual_witness :
  exists s',
    find_stream 7 (fst (cancelStream 7 30000 30000 scenario)) = Some s'
    /\ calcAccrued s' 90000 = 30%float.
Proof.
  destruct (cancel_freezes_accrual 7 30000 30000 scenario
              (mkStream 7 "You (Local)" "bob" 100 1 0 100000 None 0 Active 0))
    as (s' & Hf & _ & Hfrozen); try reflexivity; try lia.
  exists s'. split; [exact Hf|]. apply (Hfrozen 90000). lia.
Defined.

(** X10: accrual stops at the end of the window: on a stream whose end is
    past its start, the accrued amount at every instant from the end on is
    the amount at the end, cancelled or not. *)
Theorem accrual_stops_at_end s t :
  start s < end_ s -> end_ s <= t ->
  calcAccrued s t = calcAccrued s (end_ s).
Proof.
  intros Hwin Ht. unfold calcAccrued.
  destruct (Z.leb_spec t (start s)); [lia|].
  destruct (Z.leb_spec (end_ s) (start s)); [lia|].
  destruct (cancelledAt s) as [c|]; [destruct (JS.truthy_ms c)|];
    cbv zeta; do 4 f_equal; lia.
Qed.

Lemma accrual_stops_at_end_witness :
  calcAccrued (mkStream 7 "You (Local)" "bob" 100 1 0 100000 None 0 Active 0)
              250000
  = 100%float.
Proof.
  rewrite (accrual_stops_at_end
             (mkStream 7 "You (Local)" "bob" 100 1 0 100000 None 0 Active 0)
             250000); [reflexivity | simpl; lia | simpl; lia].
Defined.

(** ** The claimable amount *)

Section ClaimableNumbers.

Local Open Scope float_scope.

Lemma max_zero_not_negative (x : float) :
  is_nan (JS.max 0 x) = false -> (0 <=? JS.max 0 x) = true.
Proof.
  unfold JS.max. destruct (is_nan 0 || is_nan x); [discriminate|].
  intros _. destruct (0 <? x) eqn:Hlt.
  - rewrite ltb_spec in Hlt. rewrite leb_spec. unfold SFltb, SFleb in *.
    now destruct (SFcompare _ _) as [[]|].
  - destruct (x <? 0); [reflexivity|]. reflexivity.
Qed.

End ClaimableNumbers.

(** X11: the claimable amount is never negative: whenever it is a number,
    it is at least 0, however much has been claimed. *)
Theorem claimable_is_not_negative s now :
  is_nan (claimable s now) = false ->
  (0 <=? claimable s now)%float = true.
Proof. apply max_zero_not_negative. Qed.

Lemma claimable_is_not_negative_witness :
  (0 <=? claimable
           (mkStream 7 "You (Local)" "bob" 100 1 0 100000 None 80 Active 0)
           50000)%float = true.
Proof.
  apply (claimable_is_not_negative
           (mkStream 7 "You (Local)" "bob" 100 1 0 100000 None 80 Active 0)
           50000).
  reflexivity.
Defined.

(** ** Sweeps *)

Lemma sweep_sweep a b s : sweep a (sweep b s) = sweep (Z.max a b) s.
Proof.
  unfold sweep.
  destruct (Status_eqb (status s) Active) eqn:Hs; simpl.
  - destruct (Z.leb_spec (end_ s) b), (Z.leb_spec (end_ s) (Z.max a b));
      simpl; try reflexivity; try lia.
    + rewrite Hs. simpl. destruct (Z.leb_spec (end_ s) a); [|lia]. reflexivity.
    + rewrite Hs. simpl. destruct (Z.leb_spec (end_ s) a); [lia|]. reflexivity.
  - now rewrite Hs.
Qed.

(** X12: sweeps compose: two sweeps in a row, in either order of their
    instants, leave the store that one sweep at the later instant leaves. *)
Theorem sweeps_compose a b streams :
  updateStatuses a (updateStatuses b streams)
  = updateStatuses (Z.max a b) streams.
Proof.
  induction streams as [|s rest IH]; simpl; [reflexivity|].
  now rewrite IH, sweep_sweep.
Qed.

(** X13: a claim or a cancel that succeeds ends with the sweep of
    [renderAll]: in the store it leaves, no stream whose end is at or before
    the instant of that sweep is still Active.  (A refused call returns
    before the sweep.) *)
Theorem success_sweeps_the_store i caller now now_paid now_render streams :
  ((exists amount,
      snd (claimForStream i caller now now_paid now_render streams)
      = Some (Claimed amount)) ->
   Forall (fun s => end_ s <= now_render -> status s <> Active)
          (fst (claimForStream i caller now now_paid now_render streams)))
  /\ ((exists returned,
         snd (cancelStream i now now_render streams)
         = Some (StreamCancelled returned)) ->
      Forall (fun s => end_ s <= now_render -> status s <> Active)
             (fst (cancelStream i now now_render streams))).
Proof.
  assert (forall l, Forall (fun s => end_ s <= now_render -> status s <> Active)
                           (updateStatuses now_render l)) as Hswept.
  { induction l as [|s rest IH]; simpl; constructor; [|exact IH].
    unfold sweep. intros He.
    destruct (Status_eqb (status s) Active) eqn:Hs; simpl.
    - destruct (Z.leb_spec (end_ s) now_render); simpl in *;
        [discriminate | lia].
    - intros Ha. apply Status_eqb_eq in Ha. congruence. }
  split.
  - unfold claimForStream, renderAll.
    destruct (find_stream i streams) as [s|];
      [|intros (a & Ha); discriminate].
    destruct (_ || _); [intros (a & Ha); discriminate|].
    destruct (_ <=? _)%float; [intros (a & Ha); discriminate|].
    intros _. apply Hswept.
  - unfold cancelStream, renderAll.
    destruct (find_stream i streams) as [s|];
      [|intros (a & Ha); discriminate].
    destruct (negb _); [intros (a & Ha); discriminate|].
    intros _. apply Hswept.
Qed.

Lemma success_sweeps_the_store_witness :
  Forall (fun s => end_ s <= 200000 -> status s <> Active)
         (fst (cancelStream 7 30000 200000
                 (run [Create 8 0 "bob" 0 100000 (Some 5%float)] scenario))).
Proof.
  destruct (success_sweeps_the_store 7 EmptyString 30000 30000 200000
              (run [Create 8 0 "bob" 0 100000 (Some 5%float)] scenario))
    as (_ & Hcancel).
  apply Hcancel. eexists. reflexivity.
Defined.

(** ** The statistics of the sender view *)

Lemma store_evolves_cons claims x l x' l' :
  store_evolves claims (x :: l) (x' :: l') ->
  evolves claims x x' /\ store_evolves claims l l'.
Proof.
  intros H. split.
  - destruct (H 0%nat x eq_refl) as (y & [= <-] & E). exact E.
  - intros n s Hn. apply (H (S n) s Hn).
Qed.

Lemma activeCount_evolves claims l l' :
  store_evolves claims l l' -> List.length l' = List.length l ->
  (activeCount l' <= activeCount l)%nat.
Proof.
  revert l'. induction l as [|x rest IH]; intros [|x' rest'] Hev Hlen;
    try discriminate; [apply Nat.le_refl|].
  apply store_evolves_cons in Hev as [Ex Erest].
  injection Hlen as Hlen. specialize (IH rest' Erest Hlen).
  unfold activeCount in *. simpl.
  pose proof (ev_status _ _ _ Ex) as Hrank.
  destruct (status x), (status x'); simpl in *; try lia.
Qed.

Lemma fold_evolves claims (field : Stream -> float) l l' :
  (forall s s', evolves claims s s' -> field s' = field s) ->
  store_evolves claims l l' -> List.length l' = List.length l ->
  forall acc,
    fold_left (fun a b => (a + or_zero (field b))%float) l' acc
    = fold_left (fun a b => (a + or_zero (field b))%float) l acc.
Proof.
  intros Hfield. revert l'.
  induction l as [|x rest IH]; intros [|x' rest'] Hev Hlen acc;
    try discriminate; [reflexivity|].
  apply store_evolves_cons in Hev as [Ex Erest].
  injection Hlen as Hlen. simpl.
  rewrite (Hfield _ _ Ex). now apply IH.
Qed.

Lemma length_step op l :
  List.length (step l op)
  = match op with
    | Create _ _ _ _ _ _ => S (List.length l)
    | _ => List.length l
    end.
Proof.
  destruct op; simpl.
  - unfold create. rewrite length_app. simpl. lia.
  - apply length_claimForStream.
  - apply length_claimAll.
  - apply length_cancelStream.
  - apply length_updateStatuses.
Qed.

Lemma activeCount_app l l' :
  activeCount (l ++ l') = (activeCount l + activeCount l')%nat.
Proof. unfold activeCount. now rewrite filter_app, length_app. Qed.

(** X14: the count of Active streams in the sender view goes up by one with
    each stream created and never goes up otherwise: no claim, claim-all,
    cancel or sweep makes a stream Active. *)
Theorem activeCount_never_grows op streams :
  match op with
  | Create _ _ _ _ _ _ =>
      activeCount (step streams op) = S (activeCount streams)
  | _ => (activeCount (step streams op) <= activeCount streams)%nat
  end.
Proof.
  pose proof (step_evolves op streams) as Hev.
  pose proof (length_step op streams) as Hlen.
  destruct op; try (eapply activeCount_evolves; eassumption).
  simpl. unfold create. rewrite activeCount_app. unfold activeCount at 2.
  simpl. lia.
Qed.

(** X15: the total deposited shown in the sender view changes only when a
    stream is created: claims, cancels and sweeps leave it as it is, and
    cancels and sweeps leave the total claimed as it is too. *)
Theorem deposits_are_fixed op streams :
  match op with
  | Create _ _ _ _ _ _ => True
  | Claim _ _ _ _ _ | ClaimAll _ _ _ _ =>
      totalDeposited (step streams op) = totalDeposited streams
  | Cancel _ _ _ | Reconcile _ =>
      totalDeposited (step streams op) = totalDeposited streams
      /\ totalClaimed (step streams op) = totalClaimed streams
  end.
Proof.
  pose proof (step_evolves op streams) as Hev.
  pose proof (length_step op streams) as Hlen.
  assert (forall c s s', evolves c s s' -> total s' = total s) as Htotal
    by (intros c s s' E; apply (ev_total _ _ _ E)).
  assert (forall s s', evolves false s s' -> claimed s' = claimed s) as Hclaimed
    by (intros s s' E; now apply (ev_claimed _ _ _ E)).
  unfold totalDeposited, totalClaimed.
  destruct op; simpl is_claim in Hev; auto;
    try split; eapply fold_evolves; eauto.
Qed.

(** ** Claiming everything *)

Lemma nth_claimAll_loop name now now_paid k acc l n s :
  nth_error l n = Some s ->
  nth_error (fst (claimAll_loop name now now_paid k acc l)) n
  = Some (fst (claimAll_stream name now (now_paid (k + n)%nat)
                 (snd (claimAll_loop name now now_paid k acc (firstn n l)))
                 s)).
Proof.
  revert k acc n. induction l as [|x rest IH]; intros k acc n Hn.
  - destruct n; discriminate.
  - destruct n; simpl in *.
    + injection Hn as <-. now rewrite Nat.add_0_r.
    + rewrite (IH _ _ _ Hn). now rewrite Nat.add_succ_r.
Qed.

(** X16: claim-all touches only the streams of the name given.  With an
    empty name it alerts "Enter recipient name" and changes nothing;
    otherwise, for names written in ASCII, a stream whose recipient is not
    that name (the case of the letters A-Z aside) is left as the closing
    sweep leaves it, its claimed amount and cancellation untouched. *)
Theorem claimAll_leaves_other_recipients name now now_paid now_render
    streams :
  (name = EmptyString ->
   claimAll name now now_paid now_render streams
   = (streams, Some EnterRecipientName))
  /\ (name <> EmptyString -> ascii_only name = true ->
      forall n s, nth_error streams n = Some s ->
        ascii_only (recipient s) = true ->
        JS.toLowerCase (recipient s) <> JS.toLowerCase name ->
        nth_error (fst (claimAll name now now_paid now_render streams)) n
        = Some (sweep now_render s)).
Proof.
  split; [intros ->; reflexivity|].
  intros Hname _ n s Hn _ Hother. unfold claimAll, renderAll.
  destruct name as [|c name']; [congruence|]. simpl negb. cbv iota. simpl fst.
  rewrite nth_updateStatuses, (nth_claimAll_loop _ _ _ _ _ _ _ _ Hn).
  simpl. unfold claimAll_stream.
  apply String.eqb_neq in Hother. now rewrite Hother.
Qed.

Lemma claimAll_leaves_other_recipients_witness :
  nth_error (fst (claimAll "alice" 50000 (fun _ => 50000) 50000 scenario)) 0
  = Some (mkStream 7 "You (Local)" "bob" 100 1 0 100000 None 0 Active 0).
Proof.
  destruct (claimAll_leaves_other_recipients "alice" 50000 (fun _ => 50000)
              50000 scenario) as (_ & Hother).
  apply (Hother ltac:(discriminate) eq_refl 0%nat
           (mkStream 7 "You (Local)" "bob" 100 1 0 100000 None 0 Active 0)).
  - reflexivity.
  - reflexivity.
  - discriminate.
Defined.

(** ** Streams that share an id *)

Lemma nth_update_first_shadowed i s' l n m x :
  (m < n)%nat -> nth_error l m = Some x -> id x = i ->
  nth_error (update_first i s' l) n = nth_error l n.
Proof.
  revert n m. induction l as [|y rest IH]; intros n m Hlt Hm Hid.
  - destruct m; discriminate.
  - simpl. destruct (Z.eqb_spec (id y) i) as [_ | Hne].
    + destruct n; [lia | reflexivity].
    + destruct m; simpl in Hm; [congruence|].
      destruct n; [lia|]. simpl. apply (IH n m); auto. lia.
Qed.

(** X17: cancel and claim reach only the first stream with the id given.  A
    stream that comes after another stream of the same id is never
    cancelled or claimed from through that id: such a call leaves it as it
    was, or as the closing sweep leaves it. *)
Theorem shadowed_stream_is_out_of_reach streams n m s x i caller
    now now_paid now_render :
  nth_error streams n = Some s -> (m < n)%nat ->
  nth_error streams m = Some x -> id x = i ->
  (nth_error (fst (cancelStream i now now_render streams)) n = Some s
   \/ nth_error (fst (cancelStream i now now_render streams)) n
      = Some (sweep now_render s))
  /\ (nth_error (fst (claimForStream i caller now now_paid now_render
                        streams)) n = Some s
      \/ nth_error (fst (claimForStream i caller now now_paid now_render
                           streams)) n
         = Some (sweep now_render s)).
Proof.
  intros Hn Hlt Hm Hid. split.
  - unfold cancelStream, renderAll.
    destruct (find_stream i streams); [|now left].
    destruct (negb _); [now left|]. right. simpl.
    rewrite nth_updateStatuses,
      (nth_update_first_shadowed _ _ _ _ _ _ Hlt Hm Hid), Hn.
    reflexivity.
  - unfold claimForStream, renderAll.
    destruct (find_stream i streams); [|now left].
    destruct (_ || _); [now left|].
    destruct (_ <=? _)%float; [now left|]. right. simpl.
    rewrite nth_updateStatuses,
      (nth_update_first_shadowed _ _ _ _ _ _ Hlt Hm Hid), Hn.
    reflexivity.
Qed.

Lemma shadowed_stream_is_out_of_reach_witness :
  nth_error
    (fst (cancelStream 7 30000 30000
            (run [Create 7 0 "carol" 0 100000 (Some 5%float)] scenario))) 1
  = Some (mkStream 7 "You (Local)" "carol" 5 (5 / 100) 0 100000 None 0
                   Active 0).
Proof.
  destruct (shadowed_stream_is_out_of_reach
              (run [Create 7 0 "carol" 0 100000 (Some 5%float)] scenario)
              1 0
              (mkStream 7 "You (Local)" "carol" 5 (5 / 100) 0 100000 None 0
                        Active 0)
              (mkStream 7 "You (Local)" "bob" 100 1 0 100000 None 0 Active 0)
              7 EmptyString 30000 30000 30000)
    as ([H | H] & _); try reflexivity; try lia; exact H.
Defined.

(** ** Amounts on chain *)

Lemma floor_BigInt_nonneg (x : float) (z : Z) :
  nonneg (Prim2SF x) -> floor_BigInt x = Some z -> 0 <= z.
Proof.
  unfold floor_BigInt.
  destruct (Prim2SF x) as [sg | sg | | sg m e]; cbn [nonneg];
    try discriminate.
  - intros _ [= <-]. lia.
  - intros -> H. cbv zeta in H.
    assert (0 <= Z.pos m * 2 ^ e) as Hup
      by (apply Z.mul_nonneg_nonneg; [lia | apply Z.pow_nonneg; lia]).
    set (up := Z.pos m * 2 ^ e) in *. clearbody up.
    destruct (Z.leb_spec 0 e) as [He | He]; [congruence|].
    assert (0 <= Z.pos m / 2 ^ (- e)) as Hdown
      by (apply Z.div_pos; [lia | apply Z.pow_pos_nonneg; lia]).
    set (down := Z.pos m / 2 ^ (- e)) in *. clearbody down. congruence.
Qed.

(** X19: an amount above 0, the only kind the "Send Funds" handler lets
    through, is never written as a negative number of lovelace: whenever
    the conversion gives an integer (it throws only when the product
    overflows), it is at least 0.  The same holds of the rate per
    millisecond of a rate that is not below 0. *)
Theorem lovelace_is_not_negative amountAda rate :
  ((0 <? amountAda)%float = true ->
   forall z, amountLovelace amountAda = Some z -> 0 <= z)
  /\ ((0 <=? rate)%float = true ->
      forall z, ratePerMs rate = Some z -> 0 <= z).
Proof.
  split.
  - intros Hpos z. apply floor_BigInt_nonneg, nonneg_mul; [|exact eq_refl].
    destruct (positive_cases _ Hpos) as [(m & e & ->) | ->]; reflexivity.
  - intros Hpos z. apply floor_BigInt_nonneg, nonneg_mul; [|exact eq_refl].
    now apply leb_nonneg.
Qed.

Lemma lovelace_is_not_negative_witness :
  amountLovelace 1.5 = Some 1500000 /\ 0 <= 1500000.
Proof.
  split; [reflexivity|].
  destruct (lovelace_is_not_negative 1.5 0) as (Hamount & _).
  apply (Hamount eq_refl 1500000 eq_refl).
Defined.

(** ** Cancelling before the start, claiming at the end *)

Section EdgeNumbers.

Local Open Scope float_scope.

(** Subtracting +0 changes no number. *)
Lemma sub_zero_r (x : float) : x - 0 = x.
Proof.
  apply Prim2SF_inj. rewrite sub_spec.
  change (Prim2SF 0) with (S754_zero false).
  destruct (Prim2SF x) as [[] | [] | | sg m e]; reflexivity.
Qed.

(** 0 minus an amount that is not below 0 leaves nothing to claim. *)
Lemma nothing_before_start (c : float) :
  (0 <=? c) = true -> (JS.max 0 (0 - c) <=? 0) = true.
Proof.
  intros Hc.
  assert (JS.max 0 (0 - c) = 0) as ->; [|reflexivity].
  unfold JS.max.
  assert (is_nan (0 - c) = false /\ (0 <? 0 - c) = false) as [Hn Hlt].
  { unfold is_nan. rewrite leb_spec in Hc. rewrite eqb_spec, ltb_spec, sub_spec.
    change (Prim2SF 0) with (S754_zero false) in *.
    destruct (Prim2SF c) as [sg | sg | | sg m e]; try discriminate;
      destruct sg; try discriminate; simpl; split; try reflexivity.
    unfold SFeqb, SFcompare.
    now rewrite Z.compare_refl, Pos.compare_cont_refl. }
  rewrite Hn, Hlt. simpl. now destruct (0 - c <? 0).
Qed.

End EdgeNumbers.

(** X22: a stream cancelled before it starts is settled at once: when an
    Active stream with nothing claimed is cancelled at an instant at or
    before its start, the whole total is reported as returned to the sender
    and the stream is marked Paid, not Cancelled, with that instant as its
    cancellation instant. *)
Theorem cancel_before_start_returns_all i now now_render streams s :
  find_stream i streams = Some s -> status s = Active ->
  claimed s = 0%float -> now <= start s ->
  snd (cancelStream i now now_render streams)
  = Some (StreamCancelled (total s))
  /\ find_stream i (fst (cancelStream i now now_render streams))
     = Some (set_cancelledAt (set_status s Paid) (Some now)).
Proof.
  intros Hf Hs Hc Hnow.
  assert (calcAccrued s now = 0%float) as Hacc.
  { unfold calcAccrued. apply Z.leb_le in Hnow. now rewrite Hnow. }
  unfold cancelStream, renderAll. rewrite Hf, Hs. simpl.
  rewrite Hacc, Hc, sub_zero_r. split; [reflexivity|].
  change (JS.geb (0 + eps) 0) with true. cbv iota.
  rewrite find_updateStatuses, (find_update_first i streams s _ Hf).
  - simpl. rewrite sweep_settled; [reflexivity | discriminate].
  - simpl. eapply find_stream_id; eauto.
Qed.

Lemma cancel_before_start_returns_all_witness :
  snd (cancelStream 7 0 0 scenario) = Some (StreamCancelled 100)
  /\ find_stream 7 (fst (cancelStream 7 0 0 scenario))
     = Some (mkStream 7 "You (Local)" "bob" 100 1 0 100000 (Some 0) 0 Paid 0).
Proof.
  apply (cancel_before_start_returns_all 7 0 0 scenario
           (mkStream 7 "You (Local)" "bob" 100 1 0 100000 None 0 Active 0));
    reflexivity.
Defined.

(** X23: before the start nothing can be claimed: at an instant at or
    before the start of a stream whose claimed amount is not below 0, a
    claim by the recipient is refused with "Nothing to claim" and changes
    nothing. *)
Theorem claim_before_start_is_refused i caller now now_paid now_render
    streams s :
  find_stream i streams = Some s ->
  JS.truthy_string caller = true ->
  JS.toLowerCase caller = JS.toLowerCase (recipient s) ->
  (0 <=? claimed s)%float = true -> now <= start s ->
  claimForStream i caller now now_paid now_render streams
  = (streams, Some NothingToClaim).
Proof.
  intros Hf Hcaller Hrec Hc Hnow.
  apply (claimForStream_nothing _ _ _ _ _ _ _ Hf Hcaller Hrec).
  unfold claimable, calcAccrued. apply Z.leb_le in Hnow. rewrite Hnow.
  now apply nothing_before_start.
Qed.

Lemma claim_before_start_is_refused_witness :
  claimForStream 7 "bob" (-5) (-5) (-5) scenario
  = (scenario, Some NothingToClaim).
Proof.
  apply (claim_before_start_is_refused 7 "bob" (-5) (-5) (-5) scenario
           (mkStream 7 "You (Local)" "bob" 100 1 0 100000 None 0 Active 0));
    try reflexivity.
  simpl. lia.
Defined.

(** X24: a claim at the end settles the stream: when a claim on an Active
    stream succeeds and the sweep that closes it reads an instant at or
    after the end of the stream, the stream is left Paid, whatever the Paid
    test of the claim itself decided. *)
Theorem claim_at_end_marks_paid i caller now now_paid now_render streams s :
  find_stream i streams = Some s -> status s = Active ->
  JS.truthy_string caller = true ->
  JS.toLowerCase caller = JS.toLowerCase (recipient s) ->
  (claimable s now <=? 0)%float = false ->
  end_ s <= now_render ->
  exists s',
    find_stream i (fst (claimForStream i caller now now_paid now_render
                          streams)) = Some s'
    /\ status s' = Paid
    /\ claimed s' = (claimed s + claimable s now)%float.
Proof.
  intros Hf Hs Hcaller Hrec Hpos Hend.
  rewrite (claimForStream_success _ _ _ _ _ _ _ Hf Hcaller Hrec Hpos).
  cbv zeta. simpl fst.
  set (s1 := set_claimed s _).
  set (s2 := if JS.geb _ _ then set_status s1 Paid else s1).
  assert (id s2 = id s /\ end_ s2 = end_ s
          /\ claimed s2 = (claimed s + claimable s now)%float
          /\ (status s2 = Active \/ status s2 = Paid))
    as (Hid & Hen & Hcl & Hst).
  { subst s2 s1. destruct (JS.geb _ _); simpl; auto. }
  exists (sweep now_render s2). split.
  - rewrite find_updateStatuses, (find_update_first i streams s s2 Hf);
      [reflexivity|].
    rewrite Hid. eapply find_stream_id; eauto.
  - unfold sweep. rewrite Hen. apply Z.leb_le in Hend. rewrite Hend.
    destruct Hst as [-> | Hp]; simpl; [auto|].
    rewrite Hp. simpl. auto.
Qed.

Lemma claim_at_end_marks_paid_witness :
  exists s',
    find_stream 7 (fst (claimForStream 7 "bob" 100000 100000 100000 scenario))
    = Some s'
    /\ status s' = Paid
    /\ claimed s' = 100%float.
Proof.
  destruct (claim_at_end_marks_paid 7 "bob" 100000 100000 100000 scenario
              (mkStream 7 "You (Local)" "bob" 100 1 0 100000 None 0 Active 0))
    as (s' & Hf & Hp & Hc); try reflexivity.
  exists s'. repeat split; assumption.
Defined.

(** ** The balance and claim-all *)

Section BalanceNumbers.

Local Open Scope float_scope.

Lemma plus_signed_round mx ex lx :
  plus_signed (binary_round_aux prec emax false mx ex lx).
Proof.
  pose proof (binary_round_aux_cases false mx ex lx) as H.
  destruct (binary_round_aux _ _ _ _ _ _); simpl; auto.
Qed.

(** Adding +0 to a running total leaves it as it is. *)
Lemma plus_signed_add_zero (acc : float) :
  plus_signed (Prim2SF acc) -> acc + 0 = acc.
Proof.
  intros H. apply Prim2SF_inj. rewrite add_spec.
  change (Prim2SF 0) with (S754_zero false).
  destruct (Prim2SF acc) as [sg | sg | | sg m e]; simpl in *; subst;
    reflexivity.
Qed.

(** Adding an amount above 0 to a running total gives a running total. *)
Lemma plus_signed_add_positive (acc x : float) :
  plus_signed (Prim2SF acc) -> (0 <? x) = true ->
  plus_signed (Prim2SF (acc + x)).
Proof.
  intros Hacc Hx. rewrite add_spec. unfold SF64add, SFadd.
  destruct (positive_cases x Hx) as [(m & e & ->) | ->];
    destruct (Prim2SF acc) as [sg | sg | | sg ma ea]; simpl in *; subst;
    try reflexivity.
  set (a := fst (shl_align ma ea _)). set (b := fst (shl_align m e _)).
  change (binary_normalize prec emax _ ?ez false)
    with (binary_round prec emax false (a + b) ez).
  unfold binary_round. destruct (shl_align (a + b) _ _).
  apply plus_signed_round.
Qed.

Lemma max_zero_not_positive (x : float) :
  is_nan x = false -> (0 <? x) = false -> JS.max 0 x = 0.
Proof.
  intros Hn Hlt. unfold JS.max. rewrite Hn, Hlt. simpl.
  now destruct (x <? 0).
Qed.

End BalanceNumbers.

Lemma claimAll_loop_total name now now_paid l :
  (forall s, In s (recipient_rows name l) ->
     is_nan (calcAccrued s now - claimed s)%float = false) ->
  forall k acc, plus_signed (Prim2SF acc) ->
    snd (claimAll_loop name now now_paid k acc l)
    = fold_left
        (fun balance s =>
           (balance + JS.max 0%float (calcAccrued s now - claimed s))%float)
        (recipient_rows name l) acc.
Proof.
  induction l as [|s rest IH]; intros Hnum k acc Hacc; [reflexivity|].
  cbn [claimAll_loop snd]. unfold claimAll_stream.
  unfold recipient_rows in *. cbn [filter] in *.
  assert (Status_eqb (status s) Active || Status_eqb (status s) Cancelled
          || Status_eqb (status s) Paid = true) as -> by now destruct (status s).
  rewrite andb_true_r.
  destruct (String.eqb _ _) eqn:Hmatch; [|now apply IH].
  pose proof (Hnum s (or_introl eq_refl)) as Hs.
  assert (forall x, In x (filter
            (fun s0 => String.eqb (JS.toLowerCase (recipient s0))
                                  (JS.toLowerCase name)) rest) ->
          is_nan (calcAccrued x now - claimed x)%float = false) as Hrest
    by (intros x Hx; apply Hnum; now right).
  cbn [fold_left]. unfold JS.gtb.
  destruct (0 <? calcAccrued s now - claimed s)%float eqn:Hpos; cbn [snd].
  - rewrite (max_zero_positive _ Hpos).
    apply IH; auto. now apply plus_signed_add_positive.
  - rewrite (max_zero_not_positive _ Hs Hpos), (plus_signed_add_zero _ Hacc).
    apply IH; auto.
Qed.

(** X25: claim-all pays the balance shown.  For a name that is not empty,
    when the accrued amount less the claimed one is a number on each stream
    of that recipient, the total that claim-all reports is the balance that
    [renderRecipient] shows for the name at the same instant. *)
Theorem claimAll_pays_the_balance name now now_paid now_render streams :
  name <> EmptyString ->
  (forall s, In s (recipient_rows name streams) ->
     is_nan (calcAccrued s now - claimed s)%float = false) ->
  exists buttons balance,
    renderRecipient name now streams = Some (buttons, balance)
    /\ snd (claimAll name now now_paid now_render streams)
       = Some (ClaimedFor balance name).
Proof.
  intros Hname Hnum. unfold renderRecipient, claimAll.
  destruct name as [|c name']; [congruence|]. simpl negb. cbv iota zeta.
  eexists. eexists. split; [reflexivity|]. simpl snd.
  now rewrite (claimAll_loop_total _ _ _ _ Hnum 0%nat 0%float eq_refl).
Qed.

Lemma claimAll_pays_the_balance_witness :
  exists buttons,
    renderRecipient "bob" 50000 scenario = Some (buttons, 50%float)
    /\ snd (claimAll "bob" 50000 (fun _ => 50000) 50000 scenario)
       = Some (ClaimedFor 50 "bob").
Proof.
  destruct (claimAll_pays_the_balance "bob" 50000 (fun _ => 50000) 50000
              scenario) as (buttons & balance & Hr & Hc).
  - discriminate.
  - intros s [<- | []]. reflexivity.
  - exists buttons. split.
    + rewrite Hr. f_equal. f_equal. injection Hr as _ <-. reflexivity.
    + rewrite Hc. f_equal. f_equal. injection Hr as _ <-. reflexivity.
Defined.

(** ** The accrual of a created stream *)

Section CreatedNumbers.

Local Open Scope float_scope.

Lemma nonneg_div (x y : float) :
  nonneg (Prim2SF x) -> above_zero (Prim2SF y) -> nonneg (Prim2SF (x / y)).
Proof.
  rewrite div_spec. unfold SF64div, SFdiv.
  destruct (Prim2SF x) as [sx | sx | | sx mx ex],
           (Prim2SF y) as [sy | sy | | sy my ey]; simpl; auto;
    try contradiction;
    try (intros -> ->; reflexivity); try (intros _ ->; reflexivity).
  intros -> ->. destruct (SFdiv_core_binary _ _ _ _ _ _) as [[mz ez] lz].
  apply nonneg_round.
Qed.

(** [Math.max(1, z)] is above 0 (or no number). *)
Lemma max_one_above_zero (z : float) : above_zero (Prim2SF (JS.max 1 z)).
Proof.
  unfold JS.max. destruct (is_nan 1 || is_nan z); [exact I|].
  destruct (1 <? z) eqn:Hlt.
  - rewrite ltb_spec in Hlt.
    change (Prim2SF 1) with (S754_finite false 4503599627370496 (-52)) in Hlt.
    destruct (Prim2SF z) as [sg | sg | | sg m e]; try discriminate;
      destruct sg; try discriminate; reflexivity.
  - destruct (z <? 1); [reflexivity|].
    change (get_sign 1) with false. reflexivity.
Qed.

Lemma above_zero_nonneg (x : spec_float) : above_zero x -> nonneg x.
Proof. destruct x; simpl; tauto. Qed.

End CreatedNumbers.

(** What [createStreamObject] gives: a rate and a total that are not below
    0, or no numbers. *)
Lemma createStreamObject_nonneg uid created who st en totalAda :
  nonneg (Prim2SF (rate (createStreamObject uid created who st en totalAda)))
  /\ nonneg (Prim2SF (total (createStreamObject uid created who st en
                                totalAda))).
Proof.
  unfold createStreamObject. cbv zeta.
  set (seconds := JS.max 1 _).
  pose proof (max_one_above_zero (JS.of_Z (en - st) / 1000)%float) as Hsec.
  fold seconds in Hsec.
  assert (nonneg (Prim2SF (FIXED_PER_MINUTE * (seconds / 60))%float)
          /\ nonneg (Prim2SF (FIXED_PER_MINUTE / 60)%float)) as [Htot Hrate].
  { split; [|exact eq_refl].
    apply nonneg_mul; [exact eq_refl|].
    apply nonneg_div; [now apply above_zero_nonneg | exact eq_refl]. }
  destruct totalAda as [t|]; simpl; [|auto].
  unfold JS.gtb. destruct (0 <? t)%float eqn:Ht; simpl; [|auto].
  assert (nonneg (Prim2SF t)) as Hnn
    by (destruct (positive_cases t Ht) as [(m & e & ->) | ->]; reflexivity).
  split; [now apply nonneg_div | exact Hnn].
Qed.

(** X26: a stream as [createStreamObject] builds it, over a window that
    does not end before its start, accrues within its total.  In every
    later state of it (same rate, total and window) that has not been
    cancelled before its start, the accrued amount is at least 0 and at most
    the total at every instant, as long as rate, total and accrued amount
    are numbers. *)
Theorem created_stream_accrues_within_total uid created who st en totalAda
    s now :
  st <= en ->
  rate s = rate (createStreamObject uid created who st en totalAda) ->
  total s = total (createStreamObject uid created who st en totalAda) ->
  start s = st -> end_ s = en ->
  (forall c, cancelledAt s = Some c -> st <= c) ->
  is_nan (rate s) = false -> is_nan (total s) = false ->
  is_nan (calcAccrued s now) = false ->
  (0 <=? calcAccrued s now)%float = true
  /\ (calcAccrued s now <=? total s)%float = true.
Proof.
  intros Hwin Hrate Htotal Hst Hen Hcancel Hnr Hnt Hna.
  destruct (createStreamObject_nonneg uid created who st en totalAda)
    as [Hr Ht].
  rewrite <- Hrate in Hr. rewrite <- Htotal in Ht.
  apply calcAccrued_bounds; try (apply nonneg_leb; assumption);
    try assumption; rewrite Hst; [rewrite Hen|]; assumption.
Qed.

Lemma created_stream_accrues_within_total_witness :
  (0 <=? calcAccrued
           (mkStream 7 "You (Local)" "bob" 100 1 0 100000 (Some 30000%Z) 30
                     Paid 0) 50000)%float = true
  /\ (calcAccrued
        (mkStream 7 "You (Local)" "bob" 100 1 0 100000 (Some 30000%Z) 30
                  Paid 0) 50000 <=? 100)%float = true.
Proof.
  apply (created_stream_accrues_within_total 7 0 "bob" 0 100000
           (Some 100%float)
           (mkStream 7 "You (Local)" "bob" 100 1 0 100000 (Some 30000%Z) 30
                     Paid 0) 50000);
    try reflexivity; try (simpl; lia).
  intros c [= <-]. lia.
Defined.

(** ** The CSV export *)

Section Csv.

Local Open Scope string_scope.

Lemma append_empty_r (s : string) : s ++ EmptyString = s.
Proof. induction s as [|c s IH]; simpl; [|rewrite IH]; reflexivity. Qed.

Lemma append_assoc (a b c : string) : (a ++ b) ++ c = a ++ (b ++ c).
Proof. induction a as [|x a IH]; simpl; [|rewrite IH]; reflexivity. Qed.

Lemma read_escape cell acc row rows rest :
  read_csv (Inside acc) row rows (escape cell ++ String quote rest)
  = read_csv (Closing (acc ++ cell)) row rows rest.
Proof.
  revert acc. induction cell as [|c cell IH]; intros acc.
  - simpl. now rewrite append_empty_r.
  - cbn [escape]. destruct (Ascii.eqb c quote) eqn:Hc.
    + apply Ascii.eqb_eq in Hc. subst c. simpl. rewrite IH.
      now rewrite append_assoc.
    + simpl. rewrite Hc, IH. now rewrite append_assoc.
Qed.

Lemma read_cell cell row rows rest :
  read_csv Opening row rows (csv_cell cell ++ rest)
  = read_csv (Closing cell) row rows rest.
Proof.
  unfold csv_cell. simpl. rewrite append_assoc. simpl.
  apply (read_escape cell EmptyString).
Qed.

Lemma csv_row_cons c c' cs :
  csv_row (c :: c' :: cs) = csv_cell c ++ String "," (csv_row (c' :: cs)).
Proof. reflexivity. Qed.

Lemma read_row_end cs c row rows :
  read_csv Opening row rows (csv_row (c :: cs))
  = Some (rows ++ [row ++ c :: cs])%list.
Proof.
  revert c row. induction cs as [|c' cs IH]; intros c row.
  - change (csv_row [c]) with (csv_cell c).
    rewrite <- (append_empty_r (csv_cell c)), read_cell. reflexivity.
  - rewrite csv_row_cons, read_cell. simpl. rewrite IH.
    now rewrite <- app_assoc.
Qed.

Lemma read_row cs c row rows rest :
  read_csv Opening row rows (csv_row (c :: cs) ++ String line_feed rest)
  = read_csv Opening [] (rows ++ [row ++ c :: cs])%list rest.
Proof.
  revert c row. induction cs as [|c' cs IH]; intros c row.
  - change (csv_row [c]) with (csv_cell c). rewrite read_cell. reflexivity.
  - rewrite csv_row_cons, append_assoc, read_cell. simpl. rewrite IH.
    now rewrite <- app_assoc.
Qed.

Lemma read_rows rs r done :
  Forall (fun r => r <> []) (r :: rs) ->
  read_csv Opening [] done (csv (r :: rs)) = Some (done ++ r :: rs)%list.
Proof.
  revert r done. induction rs as [|r' rs IH]; intros r done Hne.
  - inversion Hne as [|? ? Hr _]; subst.
    destruct r as [|c cs]; [congruence|].
    change (csv [c :: cs]) with (csv_row (c :: cs)).
    now rewrite read_row_end.
  - inversion Hne as [|? ? Hr Hrest]; subst.
    destruct r as [|c cs]; [congruence|].
    change (csv ((c :: cs) :: r' :: rs))
      with (csv_row (c :: cs) ++ String line_feed (csv (r' :: rs))).
    rewrite read_row, IH by assumption.
    now rewrite <- app_assoc.
Qed.

End Csv.

(** X27: the exported CSV keeps its rows and cells apart.  Two tables
    whose rows all have a cell are written as the same text only when they
    are the same table, whatever the cells hold: commas, line feeds and
    double quotes in a recipient name cannot shift a column or add a
    row. *)
Theorem csv_is_unambiguous rows rows' :
  Forall (fun r => r <> []) rows -> Forall (fun r => r <> []) rows' ->
  csv rows = csv rows' -> rows = rows'.
Proof.
  intros Hne Hne' Heq.
  assert (forall r rs, Forall (fun r => r <> []) (r :: rs) ->
            csv (r :: rs) <> EmptyString) as Hfull.
  { intros r rs H E. pose proof (read_rows rs r [] H) as Hread.
    rewrite E in Hread. discriminate. }
  destruct rows as [|r rs], rows' as [|r' rs']; auto.
  - symmetry in Heq. exfalso. exact (Hfull r' rs' Hne' Heq).
  - exfalso. exact (Hfull r rs Hne Heq).
  - pose proof (read_rows rs r [] Hne) as Hread.
    rewrite Heq, read_rows in Hread by assumption.
    simpl in Hread. congruence.
Qed.

Lemma csv_is_unambiguous_witness :
  [["a,b"%string; "c"%string]] = [["a,b"%string; "c"%string]].
Proof.
  apply csv_is_unambiguous; try reflexivity;
    repeat constructor; discriminate.
Defined.
